(** * generate_release.py: the BatteryDaddy release generator

    A shallow embedding of [src/generate_release.py].  The script is a
    sequential driver around three kinds of effects: the file system
    (pathlib / shutil), the wall clock ([datetime.now]) and one external
    process ([subprocess.run] on the [openscad] executable).  They are
    modelled by a state-and-exception monad over a [World]; the behaviour
    of the external tool and of the clock is an [Env] every theorem
    quantifies over. *)

From stdpp Require Import gmap strings list fin_maps pretty.
From Stdlib Require Import ZArith Lia.

(** ** Strings *)

Module Str.

(** The double-quote character, used by the f-strings that wrap a label
    in literal quotes for OpenSCAD's string syntax. *)
Definition dquote : string := String (Ascii.ascii_of_nat 34) EmptyString.

Definition nl : string := String (Ascii.ascii_of_nat 10) EmptyString.

Definition slash : Ascii.ascii := Ascii.ascii_of_nat 47.

(** [sep.join(xs)] *)
Definition join (sep : string) (xs : list string) : string :=
  String.concat sep xs.

(** [s * n] *)
Fixpoint repeat_str (s : string) (n : nat) : string :=
  match n with
  | O => EmptyString
  | S n' => s +:+ repeat_str s n'
  end.

(** [f"{s:w}"] for a [str]: left-justified, padded with spaces (the
    identifiers of the tables are ASCII, one byte per character). *)
Definition ljust (w : nat) (s : string) : string :=
  s +:+ repeat_str " " (w - String.length s).

(** [s.zfill(w)] restricted to digit strings: pad on the left with 0. *)
Definition zfill (w : nat) (s : string) : string :=
  repeat_str "0" (w - String.length s) +:+ s.

(** [name] matches the glob pattern [*suffix]. *)
Definition ends_with (suffix name : string) : bool :=
  let n := String.length name in
  let k := String.length suffix in
  (k <=? n) && String.eqb (String.substring (n - k) k name) suffix.

Fixpoint no_slash (s : string) : bool :=
  match s with
  | EmptyString => true
  | String c s' => negb (Ascii.eqb c slash) && no_slash s'
  end.

(** Components of a slash-separated path string, as the operating
    system reads the argument of [-o]. *)
Fixpoint split_slash (s : string) : list string :=
  match s with
  | EmptyString => [EmptyString]
  | String c s' =>
      if Ascii.eqb c slash then EmptyString :: split_slash s'
      else match split_slash s' with
           | x :: xs => String c x :: xs
           | [] => [String c EmptyString]
           end
  end.

(** Decimal reading of a digit string (the inverse of [pretty]). *)
Fixpoint parse_digits (acc : nat) (s : string) : nat :=
  match s with
  | EmptyString => acc
  | String c s' =>
      parse_digits (10 * acc + (Ascii.nat_of_ascii c - 48)) s'
  end.

End Str.

(** ** Paths

    A [pathlib.Path] relative to the working directory is the list of its
    components; [Path(".")] is the empty list.  [p / name] appends one
    component: every name the script appends (table identifiers, glob
    results, fixed file names) is a single component. *)

Abbreviation path := (list string).

Definition path_div (p : path) (name : string) : path := p ++ [name].
Infix "//" := path_div (at level 40, left associativity).

(** [str(p)] *)
Definition path_str (p : path) : string :=
  match p with
  | [] => "."
  | _ => Str.join "/" p
  end.

(** ** Wall-clock time *)

Record datetime := mk_datetime {
  year : nat; month : nat; day : nat;
  hour : nat; minute : nat; second : nat;
  microsecond : nat
}.

(** The ranges [datetime] objects are confined to (MINYEAR = 1,
    MAXYEAR = 9999). *)
Definition valid_datetime (t : datetime) : Prop :=
  1 ≤ year t < 100 * 100 ∧ 1 ≤ month t ≤ 12 ∧ 1 ≤ day t ≤ 31 ∧
  hour t < 24 ∧ minute t < 60 ∧ second t < 60 ∧ microsecond t < 1000 * 1000.

(** [%Y] is the year zero-padded to four digits, as [strftime] is
    documented (0001 ... 9999); [%m %d %H %M %S] are zero-padded to
    two. *)
Definition fmt_dec (w n : nat) : string := Str.zfill w (pretty n).

(** [t.strftime("Release-%Y-%m-%d_%H%M%S")] *)
Definition strftime_release (t : datetime) : string :=
  "Release-" +:+ fmt_dec 4 (year t) +:+ "-" +:+ fmt_dec 2 (month t) +:+ "-"
  +:+ fmt_dec 2 (day t) +:+ "_" +:+ fmt_dec 2 (hour t)
  +:+ fmt_dec 2 (minute t) +:+ fmt_dec 2 (second t).

(** [t.strftime('%Y-%m-%d %H:%M:%S')] *)
Definition strftime_manifest (t : datetime) : string :=
  fmt_dec 4 (year t) +:+ "-" +:+ fmt_dec 2 (month t) +:+ "-"
  +:+ fmt_dec 2 (day t) +:+ " " +:+ fmt_dec 2 (hour t) +:+ ":"
  +:+ fmt_dec 2 (minute t) +:+ ":" +:+ fmt_dec 2 (second t).

(** The reading with the sub-second part dropped: what both formats keep. *)
Definition to_seconds (t : datetime) : datetime :=
  mk_datetime (year t) (month t) (day t) (hour t) (minute t) (second t) 0.

(** ** The world the script runs in *)

(** A file-system entry: a regular file with its text, or a directory. *)
Inductive node :=
| File (content : string)
| Dir.

Global Instance node_eq_dec : EqDecision node.
Proof. solve_decision. Defined.

(** What [subprocess.run(cmd, capture_output=True, text=True)] observes:
    the process ran and exited with a return code and a captured standard
    error that decodes as text (having written [output] to the path given
    after [-o], if anything); or the process ran to its exit but what it
    printed does not decode as text; or the executable could not be
    started at all. *)
Inductive proc_result :=
| Exited (returncode : Z) (stderr : string) (output : option string)
| Undecodable (returncode : Z) (output : option string)
| NotStarted.

(** The run came back to the caller with an exit status. *)
Definition exited (r : proc_result) : bool :=
  match r with
  | Exited _ _ _ => true
  | _ => false
  end.

(** What the tool wrote at its [-o] path during the run. *)
Definition written (r : proc_result) : option string :=
  match r with
  | Exited _ _ out => out
  | Undecodable _ out => out
  | NotStarted => None
  end.

Record World := mk_World {
  fs : gmap path node;                       (* relative to the working directory *)
  stdout : list string;                      (* chunks written, oldest first *)
  calls : list (list string * proc_result);  (* external invocations, oldest first *)
  ticks : nat                                (* clock readings taken so far *)
}.

Record Env := mk_Env {
  tool : gmap path node → list (list string * proc_result) → list string
         → proc_result;
  clock : nat → datetime;
  cwd_abs : string
}.

(** A call of the external tool succeeded when it exited with status 0. *)
Definition exit_ok (r : proc_result) : bool :=
  match r with
  | Exited code _ _ => (code =? 0)%Z
  | Undecodable _ _ => false
  | NotStarted => false
  end.

(** ** Exceptions and the monad *)

(** [OSError] stands for the whole family the file system and process
    creation raise ([FileNotFoundError], [FileExistsError],
    [IsADirectoryError], [NotADirectoryError], ...); the script has no
    handler for any of them.  [CalledProcessError] is not an [OSError],
    and neither is [UnicodeDecodeError] (a [ValueError]), which strict
    decoding of captured output raises. *)
Inductive exn :=
| CalledProcessError (returncode : Z) (stderr : string)
| UnicodeDecodeError
| OSError.

Inductive outcome (A : Type) :=
| Returned (a : A)
| Raised (e : exn).
Arguments Returned {A} a.
Arguments Raised {A} e.

Definition M (A : Type) : Type := World → outcome A * World.

Definition ret {A} (a : A) : M A := λ w, (Returned a, w).

Definition bind {A B} (m : M A) (k : A → M B) : M B :=
  λ w, match m w with
       | (Returned a, w') => k a w'
       | (Raised e, w') => (Raised e, w')
       end.

Definition raise {A} (e : exn) : M A := λ w, (Raised e, w).

(** [try: m  except <class> as e: h e]; [h] answers [None] for the
    exceptions the clause does not name, which keep propagating. *)
Definition try_except {A} (m : M A) (h : exn → option (M A)) : M A :=
  λ w, match m w with
       | (Returned a, w') => (Returned a, w')
       | (Raised e, w') =>
           match h e with
           | Some k => k w'
           | None => (Raised e, w')
           end
       end.

Notation "x <- c1 ;; c2" := (bind c1 (λ x, c2))
  (at level 100, c1 at next level, right associativity).
Notation "c1 ;; c2" := (bind c1 (λ _, c2))
  (at level 100, right associativity).

(** [for x in xs: s = body(x, s)] with the loop-carried variables [s]. *)
Fixpoint for_ {X S} (xs : list X) (body : X → S → M S) (s : S) : M S :=
  match xs with
  | [] => ret s
  | x :: xs' => s' <- body x s ;; for_ xs' body s'
  end.

(** [for x in xs: body(x)] *)
Definition for_each {X} (xs : list X) (body : X → M unit) : M unit :=
  for_ xs (λ x _, body x) tt.

(** ** Primitive effects *)

Section Primitives.
Variable env : Env.

(** [print(s, end=e)] *)
Definition print_end (s e : string) : M unit :=
  λ w, (Returned tt,
        mk_World (fs w) (stdout w ++ [s +:+ e]) (calls w) (ticks w)).

(** [print(s)] *)
Definition print (s : string) : M unit := print_end s Str.nl.

(** [datetime.now()] *)
Definition now : M datetime :=
  λ w, (Returned (clock env (ticks w)),
        mk_World (fs w) (stdout w) (calls w) (S (ticks w))).

Definition get_fs : M (gmap path node) := λ w, (Returned (fs w), w).

Definition put_fs (f : gmap path node) : M unit :=
  λ w, (Returned tt, mk_World f (stdout w) (calls w) (ticks w)).

(** [os.path.isdir(p)]; the working directory itself is a directory. *)
Definition is_dir (f : gmap path node) (p : path) : bool :=
  match p with
  | [] => true
  | _ => match f !! p with Some Dir => true | _ => false end
  end.

(** [p.exists()] *)
Definition path_exists (p : path) : M bool :=
  f <- get_fs ;;
  ret (match p with [] => true | _ => bool_decide (is_Some (f !! p)) end).

(** [os.mkdir(p)] under [exist_ok=True]: an existing directory is left
    alone, a regular file in the way is an error, and so is a missing
    parent. *)
Definition mkdir_exist_ok (p : path) : M unit :=
  f <- get_fs ;;
  match f !! p with
  | Some Dir => ret tt
  | Some (File _) => raise OSError
  | None =>
      if is_dir f (removelast p) then put_fs (<[p := Dir]> f)
      else raise OSError
  end.

(** [p.mkdir(parents=True, exist_ok=True)]: every proper ancestor
    first, outermost first, then [p]. *)
Definition mkdir_parents (p : path) : M unit :=
  for_each (map (λ n, take n p) (seq 1 (length p))) mkdir_exist_ok.

(** Opening [p] for reading and reading it all. *)
Definition read_text (p : path) : M string :=
  f <- get_fs ;;
  match f !! p with
  | Some (File c) => ret c
  | Some Dir => raise OSError
  | None => raise OSError
  end.

(** [p.write_text(c)]: create or truncate the regular file [p]. *)
Definition write_text (p : path) (c : string) : M unit :=
  f <- get_fs ;;
  if is_dir f p then raise OSError
  else if is_dir f (removelast p) then put_fs (<[p := File c]> f)
  else raise OSError.

(** [shutil.copy(src, dst)]: a directory [dst] receives the file under
    the source's own name. *)
Definition shutil_copy (src dst : path) : M unit :=
  f <- get_fs ;;
  let dst' := if is_dir f dst then dst // List.last src EmptyString
              else dst in
  c <- read_text src ;;
  write_text dst' c.

(** [Path(".").glob("*" + suffix)]: the entries of the working directory
    (files and directories alike) whose name ends in [suffix], as
    one-component paths, in the directory's own enumeration order. *)
Definition glob_list (suffix : string) (f : gmap path node) : list path :=
  map fst (map_to_list
    (filter (λ kv, length kv.1 = 1 ∧
                   Forall (λ n, Str.ends_with suffix n = true) kv.1)
            f)).

Definition glob_cwd (suffix : string) : M (list path) :=
  f <- get_fs ;;
  ret (glob_list suffix f).

(** The argument that follows [-o] on a command line. *)
Fixpoint output_arg (cmd : list string) : option string :=
  match cmd with
  | flag :: rest =>
      match rest with
      | p :: _ => if String.eqb flag "-o" then Some p else output_arg rest
      | [] => None
      end
  | [] => None
  end.

(** The file-system effect of an external run: the tool writes its
    output, if any, at the path it was given after [-o]. *)
Definition tool_writes (cmd : list string) (r : proc_result)
    (f : gmap path node) : gmap path node :=
  match written r, output_arg cmd with
  | Some c, Some p => <[Str.split_slash p := File c]> f
  | _, _ => f
  end.

(** [subprocess.run(cmd, capture_output=True, text=True, check=True)]:
    returns when the process exits with status 0, raises
    [CalledProcessError] carrying the captured standard error when it
    exits with another status, and raises [FileNotFoundError] (an
    [OSError]) when the executable cannot be started.  The captured
    output is decoded before the exit status is looked at: when it does
    not decode, [UnicodeDecodeError] is raised whatever the status. *)
Definition subprocess_run_check (cmd : list string) : M unit :=
  λ w,
    let r := tool env (fs w) (calls w) cmd in
    let w' := mk_World (tool_writes cmd r (fs w)) (stdout w)
                       (calls w ++ [(cmd, r)]) (ticks w) in
    match r with
    | Exited code err _ =>
        if (code =? 0)%Z then (Returned tt, w')
        else (Raised (CalledProcessError code err), w')
    | Undecodable _ _ => (Raised UnicodeDecodeError, w')
    | NotStarted => (Raised OSError, w')
    end.

End Primitives.

(** ** The compatibility matrix

    A Python [dict] iterates in insertion order, so each table is the
    list of its items in source order. *)

Definition BUTTON_CELL_COMPAT : list (string * list string) :=
  [ ("CR2450", ["D"]);
    ("CR2032", ["D"; "C"]);
    ("CR2016", ["D"; "C"]);
    ("CR1632", ["D"; "C"]);
    ("CR1616", ["D"; "C"]) ].

Definition CYLINDER_COMPAT : list (string * list string) :=
  [ ("A27", ["D"; "C"]);
    ("AAAA", ["D"; "C"]) ].

(** [len(table)] and [sum(len(hosts) for hosts in table.values())] *)
Definition table_len (table : list (string * list string)) : nat :=
  length table.

Definition table_files (table : list (string * list string)) : nat :=
  foldr (λ kv acc, length kv.2 + acc) 0 table.

(** [f"{battery}-{host}.stl"] *)
Definition stl_name (battery host : string) : string :=
  battery +:+ "-" +:+ host +:+ ".stl".

(** [f'"{s}"'] *)
Definition quoted (s : string) : string := Str.dquote +:+ s +:+ Str.dquote.

(** ** The script *)

Section Script.
Variable env : Env.

(** The command line [run_openscad] assembles (lines 29-32). *)
Definition openscad_cmd (scad_file output_file : path)
    (params : list (string * string)) : list string :=
  ["openscad"; "-o"; path_str output_file]
  ++ flat_map (λ kv, ["-D"; kv.1 +:+ "=" +:+ kv.2]) params
  ++ [path_str scad_file].

Definition run_openscad (scad_file output_file : path)
    (params : list (string * string)) : M (bool * option string) :=
  let cmd := openscad_cmd scad_file output_file params in
  print ("Running: " +:+ Str.join " " cmd) ;;
  try_except
    (subprocess_run_check env cmd ;;
     ret (true, None))
    (λ e, match e with
          | CalledProcessError _ err => Some (ret (false, Some err))
          | UnicodeDecodeError => None
          | OSError => None
          end).

Definition button_cell_params (battery host : string)
    : list (string * string) :=
  [ ("battery_label", quoted battery);
    ("host_battery_type", quoted host) ].

Definition generate_button_cell_stls (output_dir : path) : M (nat * nat) :=
  print "🔋 Generating button cell adapters..." ;;
  let scad_file := ["button_cell_adapter.scad"] in
  for_ BUTTON_CELL_COMPAT (λ item counts,
    for_ item.2 (λ host counts,
      let battery := item.1 in
      let output_file := output_dir // stl_name battery host in
      let params := button_cell_params battery host in
      print_end ("  " +:+ Str.ljust 8 battery +:+ " → " +:+ Str.ljust 2 host)
                " ... " ;;
      r <- run_openscad scad_file output_file params ;;
      let success := r.1 in
      let error := r.2 in
      if success then
        print "✓" ;;
        ret (counts.1 + 1, counts.2)
      else
        print "✗" ;;
        match error with
        | Some (String c e) => print ("    Error: " +:+ String c e)
        | _ => ret tt
        end ;;
        ret (counts.1, counts.2 + 1)) counts) (0, 0).

Definition cylinder_params (battery host : string)
    : list (string * string) :=
  [ ("battery_type", quoted battery);
    ("host_battery_type", quoted host) ].

Definition generate_cylinder_stls (output_dir : path) : M (nat * nat) :=
  print "⚡ Generating cylindrical battery adapters..." ;;
  let scad_file := ["cylinder_battery_adapter.scad"] in
  for_ CYLINDER_COMPAT (λ item counts,
    for_ item.2 (λ host counts,
      let battery := item.1 in
      let output_file := output_dir // stl_name battery host in
      let params := cylinder_params battery host in
      print_end ("  " +:+ Str.ljust 8 battery +:+ " → " +:+ Str.ljust 2 host)
                " ... " ;;
      r <- run_openscad scad_file output_file params ;;
      let success := r.1 in
      let error := r.2 in
      if success then
        print "✓" ;;
        ret (counts.1 + 1, counts.2)
      else
        print "✗" ;;
        match error with
        | Some (String c e) => print ("    Error: " +:+ String c e)
        | _ => ret tt
        end ;;
        ret (counts.1, counts.2 + 1)) counts) (0, 0).

(** The static part of the manifest template between the timestamp
    line and the computed totals (lines 103-125 of the source). *)
Definition manifest_listing : string :=
"
## Button Cell Adapters (Coin Cells)

### CR2450 (24.5mm) - Largest coin cell
- CR2450-D.stl (D holder only)

### CR2032 / CR2016 (20mm) - Standard coin cells
- CR2032-D.stl, CR2032-C.stl
- CR2016-D.stl, CR2016-C.stl

### CR1632 / CR1616 (16mm) - Smaller coin cells
- CR1632-D.stl, CR1632-C.stl, CR1632-AA.stl
- CR1616-D.stl, CR1616-C.stl, CR1616-AA.stl

## Cylindrical Battery Adapters

### A27 (7.75mm diameter, 28mm length)
- A27-D.stl, A27-C.stl

### AAAA (8.3mm diameter, 42.5mm length)
- AAAA-D.stl, AAAA-C.stl

---
".

(** The two computed lines that close the manifest (lines 126-127). *)
Definition manifest_totals : string :=
  "Total combinations: "
  +:+ pretty (table_len BUTTON_CELL_COMPAT + table_len CYLINDER_COMPAT)
  +:+ " battery types" +:+ Str.nl
  +:+ "Total files: "
  +:+ pretty (table_files BUTTON_CELL_COMPAT + table_files CYLINDER_COMPAT)
  +:+ " STLs" +:+ Str.nl.

(** The f-string of [create_manifest], for the clock reading [t]. *)
Definition manifest_text (t : datetime) : string :=
  "# BatteryDaddy Release Manifest" +:+ Str.nl
  +:+ "Generated: " +:+ strftime_manifest t +:+ Str.nl
  +:+ manifest_listing
  +:+ manifest_totals.

Definition create_manifest (output_dir : path) : M unit :=
  t <- now env ;;
  let manifest := manifest_text t in
  let manifest_file := output_dir // "MANIFEST.txt" in
  write_text manifest_file manifest ;;
  print (Str.nl +:+ "📝 Manifest: " +:+ path_str manifest_file).

(** [main] returns the process exit status handed to [sys.exit]. *)
Definition main : M Z :=
  t <- now env ;;
  let release_name := strftime_release t in
  let release_dir := ["releases"] // release_name in
  let stl_dir := release_dir // "stls" in
  print ("📦 Creating release: " +:+ release_name +:+ Str.nl) ;;
  mkdir_parents stl_dir ;;
  button <- generate_button_cell_stls stl_dir ;;
  let button_success := button.1 in
  let button_fail := button.2 in
  print EmptyString ;;
  cylinder <- generate_cylinder_stls stl_dir ;;
  let cylinder_success := cylinder.1 in
  let cylinder_fail := cylinder.2 in
  print (Str.nl +:+ "📄 Copying source files...") ;;
  scad_files <- glob_cwd ".scad" ;;
  for_each scad_files (λ scad_file,
    let name := List.last scad_file EmptyString in
    shutil_copy scad_file (release_dir // name) ;;
    print ("  " +:+ name)) ;;
  readme <- path_exists ["README.md"] ;;
  (if readme then
     shutil_copy ["README.md"] (release_dir // "README.md") ;;
     print "  README.md"
   else ret tt) ;;
  create_manifest release_dir ;;
  let total_success := button_success + cylinder_success in
  let total_fail := button_fail + cylinder_fail in
  print (Str.nl +:+ Str.repeat_str "=" 50) ;;
  print ("✓ Successfully generated: " +:+ pretty total_success +:+ " STLs") ;;
  (if 0 <? total_fail then
     print ("✗ Failed: " +:+ pretty total_fail +:+ " STLs")
   else ret tt) ;;
  print ("📁 Release location: " +:+ cwd_abs env +:+ "/"
         +:+ path_str release_dir) ;;
  print (Str.repeat_str "=" 50) ;;
  ret (if total_fail =? 0 then 0%Z else 1%Z).

End Script.

(** ** The parameterized driver of the design notes

    The specification proposes one driver configured by (template file,
    parameter-builder function, compatibility table) in place of the two
    loops.  It is written here from those words: enumerate the (battery,
    host) pairs of the table in order and make one attempt per pair. *)

Definition table_pairs (table : list (string * list string))
    : list (string * string) :=
  flat_map (λ item, map (pair item.1) item.2) table.

Section Driver.
Variable env : Env.
Variable scad_file : path.
Variable build_params : string → string → list (string * string).

Definition attempt_cmd (output_dir : path) (p : string * string)
    : list string :=
  openscad_cmd scad_file (output_dir // stl_name p.1 p.2)
               (build_params p.1 p.2).

Definition attempt (output_dir : path) (p : string * string)
    (counts : nat * nat) : M (nat * nat) :=
  print_end ("  " +:+ Str.ljust 8 p.1 +:+ " → " +:+ Str.ljust 2 p.2)
            " ... " ;;
  r <- run_openscad env scad_file (output_dir // stl_name p.1 p.2)
                    (build_params p.1 p.2) ;;
  if r.1 then
    print "✓" ;;
    ret (counts.1 + 1, counts.2)
  else
    print "✗" ;;
    match r.2 with
    | Some (String c e) => print ("    Error: " +:+ String c e)
    | _ => ret tt
    end ;;
    ret (counts.1, counts.2 + 1).

Definition generation_driver (table : list (string * list string))
    (output_dir : path) : M (nat * nat) :=
  for_ (table_pairs table) (attempt output_dir) (0, 0).

(** What one attempt writes to the console, given the tool's answer. *)
Definition attempt_chunks (output_dir : path) (p : string * string)
    (r : proc_result) : list string :=
  [ ("  " +:+ Str.ljust 8 p.1 +:+ " → " +:+ Str.ljust 2 p.2) +:+ " ... ";
    ("Running: " +:+ Str.join " " (attempt_cmd output_dir p)) +:+ Str.nl ]
  ++ match r with
     | Exited code err _ =>
         if (code =? 0)%Z then [ "✓" +:+ Str.nl ]
         else ("✗" +:+ Str.nl)
              :: match err with
                 | String c e =>
                     [ ("    Error: " +:+ String c e) +:+ Str.nl ]
                 | EmptyString => []
                 end
     | Undecodable _ _ => []
     | NotStarted => []
     end.

(** The world after one attempt made in [w]. *)
Definition attempt_world (output_dir : path) (p : string * string)
    (w : World) : World :=
  let cmd := attempt_cmd output_dir p in
  let r := tool env (fs w) (calls w) cmd in
  mk_World (tool_writes cmd r (fs w))
           (stdout w ++ attempt_chunks output_dir p r)
           (calls w ++ [(cmd, r)])
           (ticks w).

(** The calls a run over the pairs [ps] makes from [w], with the
    tool's answers, assuming each attempt is made. *)
Fixpoint attempts_trace (output_dir : path) (ps : list (string * string))
    (w : World)
    : list (list string * proc_result) :=
  match ps with
  | [] => []
  | p :: ps' =>
      (attempt_cmd output_dir p, tool env (fs w) (calls w) (attempt_cmd output_dir p))
      :: attempts_trace output_dir ps' (attempt_world output_dir p w)
  end.

Definition attempts_world (output_dir : path) (ps : list (string * string))
    (w : World)
    : World :=
  foldl (λ w p, attempt_world output_dir p w) w ps.

End Driver.

(** Counting the calls of a trace by their exit status. *)
Definition count_ok (cs : list (list string * proc_result)) : nat :=
  length (filter (λ c, exit_ok c.2 = true) cs).

Definition count_failed (cs : list (list string * proc_result)) : nat :=
  length (filter (λ c, exit_ok c.2 = false) cs).

(** The external tool can always be started (the executable is on the
    execution path) and reports back: every call ends with some exit
    status and output that decodes as text. *)
Definition tool_runs (env : Env) : Prop :=
  ∀ f h cmd, exited (tool env f h cmd) = true.

(** The external tool can never be started. *)
Definition tool_missing (env : Env) : Prop :=
  ∀ f h cmd, tool env f h cmd = NotStarted.

Definition print_world (s : string) (w : World) : World :=
  mk_World (fs w) (stdout w ++ [s +:+ Str.nl]) (calls w) (ticks w).

Definition button_scad : path := ["button_cell_adapter.scad"].
Definition cylinder_scad : path := ["cylinder_battery_adapter.scad"].
Definition button_banner : string := "🔋 Generating button cell adapters...".
Definition cylinder_banner : string :=
  "⚡ Generating cylindrical battery adapters...".

(** The contract of a generation loop run from [w] with result [run]:
    it returns its two counters, having called the tool once per pair of
    [table], in table order, each call asking for the file
    [{battery}-{host}.stl] of [output_dir]. *)
Definition one_attempt_per_pair (scad_file : path)
    (build_params : string → string → list (string * string))
    (table : list (string * list string)) (output_dir : path)
    (w : World) (run : outcome (nat * nat) * World) : Prop :=
  ∃ success_count fail_count w' new,
    run = (Returned (success_count, fail_count), w') ∧
    calls w' = calls w ++ new ∧
    map fst new
    = map (λ p, openscad_cmd scad_file (output_dir // stl_name p.1 p.2)
                             (build_params p.1 p.2))
          (table_pairs table) ∧
    map (λ c, output_arg c.1) new
    = map (λ p, Some (path_str
                        (output_dir // (p.1 +:+ "-" +:+ p.2 +:+ ".stl"))))
          (table_pairs table) ∧
    length new = table_files table ∧
    success_count + fail_count = length new.

(** Two worlds that differ at most in what has been printed. *)
Definition same_but_stdout (w1 w2 : World) : Prop :=
  fs w1 = fs w2 ∧ calls w1 = calls w2 ∧ ticks w1 = ticks w2.

(** The release directory [main] derives from the clock reading [t]
    (lines 135-137), and its [stls] subdirectory. *)
Definition release_dir_of (t : datetime) : path :=
  ["releases"] // strftime_release t.

Definition stl_dir_of (t : datetime) : path := release_dir_of t // "stls".

(** [fmt_dec w n] has exactly [w] characters and reads back as [n]. *)
Definition fmt_dec_exact (w n : nat) : bool :=
  (String.length (fmt_dec w n) =? w)
  && (Str.parse_digits 0 (fmt_dec w n) =? n).

(** ** The file system along a run of [main] *)

Definition set_fs (f : gmap path node) (w : World) : World :=
  mk_World f (stdout w) (calls w) (ticks w).

(** The three directories [stl_dir.mkdir(parents=True, exist_ok=True)]
    makes sure of. *)
Definition mkdirs_fs (t : datetime) (f : gmap path node) : gmap path node :=
  <[stl_dir_of t := Dir]>
    (<[release_dir_of t := Dir]> (<[["releases"] := Dir]> f)).

(** A one-component path that [main] copies into the release root: a
    [*.scad] entry or the readme. *)
Definition is_source (q : path) : bool :=
  match q with
  | [n] => String.eqb n "README.md" || Str.ends_with ".scad" n
  | _ => false
  end.

(** Copying the regular file [src] into the directory [rd]. *)
Definition copy_fs (rd : path) (f : gmap path node) (src : path)
    : gmap path node :=
  match f !! src with
  | Some (File c) => <[rd // List.last src EmptyString := File c]> f
  | _ => f
  end.

(** The file system after the copies and the manifest of a run whose
    generation phase left [f], the manifest being stamped [t]. *)
Definition assemble_fs (rd : path) (t : datetime) (f : gmap path node)
    : gmap path node :=
  <[rd // "MANIFEST.txt" := File (manifest_text t)]>
    (copy_fs rd (foldl (copy_fs rd) f (glob_list ".scad" f)) ["README.md"]).

(** The release directory of the reading [t] does not exist yet, and
    nothing but a directory is in the way of [releases]. *)
Definition release_fresh (t : datetime) (f : gmap path node) : bool :=
  match f !! ["releases"] with Some (File _) => false | _ => true end
  && bool_decide (map_Forall (λ q _, ¬ release_dir_of t `prefix_of` q) f).

(** No directory of the working directory is named like a source file. *)
Definition sources_regular (f : gmap path node) : bool :=
  bool_decide (map_Forall (λ q nd, nd = Dir → is_source q = false) f).

(** The state in which [main] runs to its [return]: the checks above, at
    the reading the run is about to take. *)
Definition run_ready (env : Env) (w : World) : bool :=
  release_fresh (clock env (ticks w)) (fs w) && sources_regular (fs w).

(** What the copy phase relies on: the release root is a directory, and
    neither the targets in it nor the sources are directories. *)
Definition tail_ready (rd : path) (f : gmap path node) : Prop :=
  f !! rd = Some Dir ∧
  (∀ n, n ≠ "stls" → f !! (rd // n) ≠ Some Dir) ∧
  (∀ q, is_source q = true → f !! q ≠ Some Dir).

(** Two file systems that agree everywhere outside the directory [d]. *)
Definition agree_outside (d : path) (f1 f2 : gmap path node) : Prop :=
  ∀ q, ¬ d `prefix_of` q → f1 !! q = f2 !! q.

(** The second half of [main] (lines 149-175), from the copies on, as a
    function of the release directory and of the two pairs of counters
    the generation loops returned. *)
Definition main_assemble (env : Env) (release_dir : path)
    (button cylinder : nat * nat) : M Z :=
  let button_success := button.1 in
  let button_fail := button.2 in
  let cylinder_success := cylinder.1 in
  let cylinder_fail := cylinder.2 in
  print (Str.nl +:+ "📄 Copying source files...") ;;
  scad_files <- glob_cwd ".scad" ;;
  for_each scad_files (λ scad_file,
    let name := List.last scad_file EmptyString in
    shutil_copy scad_file (release_dir // name) ;;
    print ("  " +:+ name)) ;;
  readme <- path_exists ["README.md"] ;;
  (if readme then
     shutil_copy ["README.md"] (release_dir // "README.md") ;;
     print "  README.md"
   else ret tt) ;;
  create_manifest env release_dir ;;
  let total_success := button_success + cylinder_success in
  let total_fail := button_fail + cylinder_fail in
  print (Str.nl +:+ Str.repeat_str "=" 50) ;;
  print ("✓ Successfully generated: " +:+ pretty total_success +:+ " STLs") ;;
  (if 0 <? total_fail then
     print ("✗ Failed: " +:+ pretty total_fail +:+ " STLs")
   else ret tt) ;;
  print ("📁 Release location: " +:+ cwd_abs env +:+ "/"
         +:+ path_str release_dir) ;;
  print (Str.repeat_str "=" 50) ;;
  ret (if total_fail =? 0 then 0%Z else 1%Z).

(** The command lines of the two loops for the pair [p]. *)
Definition button_cmd (output_dir : path) (p : string * string)
    : list string :=
  attempt_cmd button_scad button_cell_params output_dir p.

Definition cylinder_cmd (output_dir : path) (p : string * string)
    : list string :=
  attempt_cmd cylinder_scad cylinder_params output_dir p.

(** The tool can be started, and reports back, on every command the two
    loops issue. *)
Definition tool_runs_on_tables (env : Env) : Prop :=
  ∀ f h output_dir p,
    (p ∈ table_pairs BUTTON_CELL_COMPAT →
     exited (tool env f h (button_cmd output_dir p)) = true) ∧
    (p ∈ table_pairs CYLINDER_COMPAT →
     exited (tool env f h (cylinder_cmd output_dir p)) = true).

(** ** Battery classes *)

Inductive battery_class := ButtonCell | Cylinder.

Global Instance battery_class_eq_dec : EqDecision battery_class.
Proof. solve_decision. Defined.

Definition class_table (c : battery_class) : list (string * list string) :=
  match c with
  | ButtonCell => BUTTON_CELL_COMPAT
  | Cylinder => CYLINDER_COMPAT
  end.

Definition class_cmd (c : battery_class) (output_dir : path)
    (p : string * string) : list string :=
  match c with
  | ButtonCell => button_cmd output_dir p
  | Cylinder => cylinder_cmd output_dir p
  end.

(** The tool exits with a nonzero status on the command of the pair
    [p0] of class [c0], and with status 0 on the command of every other
    pair of the two tables. *)
Definition fails_exactly_at (env : Env) (c0 : battery_class)
    (p0 : string * string) : Prop :=
  ∀ c p f h output_dir,
    p ∈ table_pairs (class_table c) →
    ∃ code err out,
      tool env f h (class_cmd c output_dir p) = Exited code err out ∧
      (code ≠ 0%Z ↔ c = c0 ∧ p = p0).

(** ** Reading the manifest listing *)

(** Blank, comma and newline separate the entries of the listing. *)
Definition is_separator (c : Ascii.ascii) : bool :=
  Ascii.eqb c (Ascii.ascii_of_nat 32) || Ascii.eqb c (Ascii.ascii_of_nat 44)
  || Ascii.eqb c (Ascii.ascii_of_nat 10).

Fixpoint split_on (sep : Ascii.ascii → bool) (s : string) : list string :=
  match s with
  | EmptyString => [EmptyString]
  | String c s' =>
      if sep c then EmptyString :: split_on sep s'
      else match split_on sep s' with
           | x :: xs => String c x :: xs
           | [] => [String c EmptyString]
           end
  end.

(** The file names [*.stl] a manifest text lists. *)
Definition listed_stl_files (text : string) : list string :=
  filter (λ tok, Str.ends_with ".stl" tok = true)
         (split_on is_separator text).

(** The file names the two loops ask the tool for. *)
Definition generated_stl_files : list string :=
  map (λ p, stl_name p.1 p.2)
      (table_pairs BUTTON_CELL_COMPAT ++ table_pairs CYLINDER_COMPAT).

(** ** Concrete runs *)

Module Example.

Definition t0 : datetime := mk_datetime 2026 11 4 9 5 7 100.

(** A later reading within the same second. *)
Definition t1 : datetime := mk_datetime 2026 11 4 9 5 7 900.

Definition cwd : gmap path node :=
  <[ ["button_cell_adapter.scad"] := File "module button() {}" ]>
    (<[ ["README.md"] := File "BatteryDaddy" ]> ∅).

Definition w0 : World := mk_World cwd [] [] 0.

(** A tool that always succeeds. *)
Definition tool_ok (f : gmap path node)
    (h : list (list string * proc_result)) (cmd : list string)
    : proc_result :=
  Exited 0 EmptyString (Some "solid adapter").

(** A tool that fails on the button-cell adapter of CR2032 for the C
    holder, recognised by its two [-D] arguments. *)
Definition tool_one_failure (f : gmap path node)
    (h : list (list string * proc_result)) (cmd : list string)
    : proc_result :=
  match cmd !! 4, cmd !! 6 with
  | Some label, Some host =>
      if String.eqb label ("battery_label=" +:+ quoted "CR2032")
         && String.eqb host ("host_battery_type=" +:+ quoted "C")
      then Exited 1 "ERROR: render failed" None
      else Exited 0 EmptyString (Some "solid adapter")
  | _, _ => Exited 0 EmptyString (Some "solid adapter")
  end.

(** No [openscad] on the execution path. *)
Definition tool_absent (f : gmap path node)
    (h : list (list string * proc_result)) (cmd : list string)
    : proc_result :=
  NotStarted.

(** A tool that renders the adapter and exits with status 0, but prints
    a diagnostic that is not valid text in the locale's encoding. *)
Definition tool_garbled (f : gmap path node)
    (h : list (list string * proc_result)) (cmd : list string)
    : proc_result :=
  Undecodable 0 (Some "solid adapter").

Definition env_ok : Env := mk_Env tool_ok (λ _, t0) "/home/user/adapters".
Definition env_garbled : Env :=
  mk_Env tool_garbled (λ _, t0) "/home/user/adapters".
Definition env_one_failure : Env :=
  mk_Env tool_one_failure (λ _, t0) "/home/user/adapters".
Definition env_absent : Env :=
  mk_Env tool_absent (λ _, t0) "/home/user/adapters".

(** Two runs in a row: readings 0 and 1 belong to the first run,
    readings 2 and 3 to the second, started within the same second. *)
Definition env_twice : Env :=
  mk_Env tool_ok (λ n, if n <? 2 then t0 else t1) "/home/user/adapters".

(** Between the two runs the template is edited. *)
Definition edit_template (w : World) : World :=
  set_fs (<[ ["button_cell_adapter.scad"] :=
               File "module button() { cylinder(d=20, h=3); }" ]> (fs w)) w.

End Example.

(** ** The loops by class, and what a run may touch *)

Definition class_scad (c : battery_class) : path :=
  match c with
  | ButtonCell => button_scad
  | Cylinder => cylinder_scad
  end.

Definition class_params (c : battery_class)
    : string → string → list (string * string) :=
  match c with
  | ButtonCell => button_cell_params
  | Cylinder => cylinder_params
  end.

Definition class_loop (c : battery_class) (env : Env) (output_dir : path)
    : M (nat * nat) :=
  match c with
  | ButtonCell => generate_button_cell_stls env output_dir
  | Cylinder => generate_cylinder_stls env output_dir
  end.

Definition dash : Ascii.ascii := Ascii.ascii_of_nat 45.

Fixpoint no_dash (s : string) : bool :=
  match s with
  | EmptyString => true
  | String c s' => negb (Ascii.eqb c dash) && no_dash s'
  end.

(** An exception other than the nonzero-exit error of [subprocess.run]. *)
Definition not_called_process_error (e : exn) : Prop :=
  match e with
  | CalledProcessError _ _ => False
  | _ => True
  end.

(** No [CalledProcessError] leaves the computation. *)
Definition no_called_process_error {A} (r : outcome A) : Prop :=
  match r with
  | Returned _ => True
  | Raised e => not_called_process_error e
  end.

(** Nothing outside the [releases] tree differs between the two worlds. *)
Definition outside_releases (w w' : World) : Prop :=
  agree_outside ["releases"] (fs w') (fs w).

(** [m] changes nothing outside [releases], lets no
    [CalledProcessError] escape, and returns values satisfying [P]. *)
Definition keeps {A} (P : A → Prop) (m : M A) : Prop :=
  ∀ w, outside_releases w (m w).2 ∧
       match (m w).1 with
       | Returned a => P a
       | Raised e => not_called_process_error e
       end.

(** A tool that can be started for the first cylinder pair only. *)
Module Midway.

Definition tool_first_only (f : gmap path node)
    (h : list (list string * proc_result)) (cmd : list string)
    : proc_result :=
  match cmd !! 4, cmd !! 6 with
  | Some battery, Some host =>
      if String.eqb battery ("battery_type=" +:+ quoted "A27")
         && String.eqb host ("host_battery_type=" +:+ quoted "D")
      then Exited 0 EmptyString (Some "solid adapter")
      else NotStarted
  | _, _ => NotStarted
  end.

Definition env : Env :=
  mk_Env tool_first_only (λ _, Example.t0) "/home/user/adapters".

End Midway.

(** * Properties *)

(** ** The monad and the loops *)

Lemma for_app {X S} (xs ys : list X) (body : X → S → M S) (s : S) (w : World) :
  for_ (xs ++ ys) body s w = bind (for_ xs body s) (for_ ys body) w.
Proof.
  revert s w. induction xs as [|x xs IH]; intros s w; [reflexivity|].
  simpl. unfold bind in *.
  destruct (body x s w) as [[s'|e] w']; [apply IH | reflexivity].
Qed.

(** Nested iteration over a table is iteration over its pairs. *)
Lemma for_table_pairs {S} (table : list (string * list string))
    (body : string * string → S → M S) (s : S) (w : World) :
  for_ table (λ item c, for_ item.2 (λ host c', body (item.1, host) c') c) s w
  = for_ (table_pairs table) body s w.
Proof.
  revert s w. induction table as [|[b hs] table IH]; intros s w; [done|].
  simpl. rewrite for_app. unfold bind.
  assert (Hin : ∀ s0 w0, for_ hs (λ host c', body (b, host) c') s0 w0
                         = for_ (map (pair b) hs) body s0 w0).
  { clear. induction hs as [|h hs IH]; intros s0 w0; [done|].
    simpl. unfold bind. destruct (body (b, h) s0 w0) as [[s1|e] w1]; [|done].
    apply IH. }
  rewrite Hin. destruct (for_ (map (pair b) hs) body s w) as [[s1|e] w1]; [|done].
  apply IH.
Qed.

Section Attempt.
Variable env : Env.
Variable scad_file : path.
Variable build_params : string → string → list (string * string).

Lemma attempt_eq (output_dir : path) (p : string * string)
    (counts : nat * nat) (w : World) :
  attempt env scad_file build_params output_dir p counts w
  = (match tool env (fs w) (calls w)
             (attempt_cmd scad_file build_params output_dir p) with
     | Exited code _ _ =>
         Returned (if (code =? 0)%Z then (counts.1 + 1, counts.2)
                   else (counts.1, counts.2 + 1))
     | Undecodable _ _ => Raised UnicodeDecodeError
     | NotStarted => Raised OSError
     end,
     attempt_world env scad_file build_params output_dir p w).
Proof.
  unfold attempt, attempt_world, attempt_chunks, run_openscad, attempt_cmd,
    try_except, subprocess_run_check, print, print_end, bind, ret.
  cbn [fs stdout calls ticks].
  destruct (tool env (fs w) (calls w) _) as [code err out|code out|].
  - destruct (code =? 0)%Z; cbn [fst snd fs stdout calls ticks].
    + by rewrite <- !app_assoc.
    + destruct err; cbn [fs stdout calls ticks]; by rewrite <- !app_assoc.
  - by rewrite <- !app_assoc.
  - by rewrite <- !app_assoc.
Qed.

End Attempt.

(** ** A generation loop, attempt by attempt *)

Lemma count_ok_cons c cs :
  count_ok (c :: cs) = (if exit_ok c.2 then 1 else 0) + count_ok cs.
Proof.
  unfold count_ok. rewrite filter_cons.
  destruct (exit_ok c.2); reflexivity.
Qed.

Lemma count_failed_cons c cs :
  count_failed (c :: cs) = (if exit_ok c.2 then 0 else 1) + count_failed cs.
Proof.
  unfold count_failed. rewrite filter_cons.
  destruct (exit_ok c.2); reflexivity.
Qed.

Lemma count_ok_failed (cs : list (list string * proc_result)) :
  count_ok cs + count_failed cs = length cs.
Proof.
  induction cs as [|c cs IH]; [done|].
  rewrite count_ok_cons, count_failed_cons, length_cons.
  destruct (exit_ok c.2); lia.
Qed.

Lemma count_failed_app cs1 cs2 :
  count_failed (cs1 ++ cs2) = count_failed cs1 + count_failed cs2.
Proof. unfold count_failed. rewrite filter_app, length_app. reflexivity. Qed.

Lemma count_failed_0 cs :
  count_failed cs = 0 ↔ Forall (λ c, exit_ok c.2 = true) cs.
Proof.
  induction cs as [|c cs IH].
  - split; [constructor | done].
  - rewrite count_failed_cons, Forall_cons. destruct (exit_ok c.2); simpl.
    + rewrite IH. tauto.
    + split; [lia | intros [? _]; done].
Qed.

Lemma table_files_pairs table : length (table_pairs table) = table_files table.
Proof.
  induction table as [|[b hs] table IH]; [done|].
  unfold table_pairs, table_files in *. simpl.
  rewrite length_app, length_map, IH. reflexivity.
Qed.

Section Loop.
Variable env : Env.
Variable scad_file : path.
Variable build_params : string → string → list (string * string).
Variable output_dir : path.

Local Abbreviation step := (attempt env scad_file build_params output_dir).
Local Abbreviation step_world :=
  (attempt_world env scad_file build_params output_dir).
Local Abbreviation cmd_of := (attempt_cmd scad_file build_params output_dir).
Local Abbreviation attempts_trace :=
  (attempts_trace env scad_file build_params output_dir).
Local Abbreviation attempts_world :=
  (attempts_world env scad_file build_params output_dir).

Lemma attempts_world_cons p ps w :
  attempts_world (p :: ps) w = attempts_world ps (step_world p w).
Proof. reflexivity. Qed.

Lemma attempts_trace_cmds ps w :
  map fst (attempts_trace ps w) = map cmd_of ps.
Proof.
  revert w. induction ps as [|p ps IH]; intros w; [done|].
  simpl. by rewrite IH.
Qed.

Lemma attempts_trace_length ps w : length (attempts_trace ps w) = length ps.
Proof.
  rewrite <- (length_map fst), attempts_trace_cmds, length_map. reflexivity.
Qed.

Lemma attempts_trace_answers ps w :
  Forall (λ c, ∃ f h, c.2 = tool env f h c.1) (attempts_trace ps w).
Proof.
  revert w. induction ps as [|p ps IH]; intros w; [constructor|].
  simpl. constructor; [simpl; eauto | apply IH].
Qed.

Lemma attempts_world_calls ps w :
  calls (attempts_world ps w) = calls w ++ attempts_trace ps w.
Proof.
  revert w. induction ps as [|p ps IH]; intros w.
  - simpl. by rewrite app_nil_r.
  - rewrite attempts_world_cons, IH. simpl. by rewrite <- app_assoc.
Qed.

Lemma attempts_world_ticks ps w : ticks (attempts_world ps w) = ticks w.
Proof.
  revert w. induction ps as [|p ps IH]; intros w; [done|].
  by rewrite attempts_world_cons, IH.
Qed.

(** With a tool that starts, the loop over [ps] returns, having made
    every attempt, with the counters advanced by the numbers of calls
    that exited with and without status 0. *)
Lemma for_attempts_runs ps counts w :
  (∀ p f h, p ∈ ps → exited (tool env f h (cmd_of p)) = true) →
  for_ ps step counts w
  = (Returned (counts.1 + count_ok (attempts_trace ps w),
               counts.2 + count_failed (attempts_trace ps w)),
     attempts_world ps w).
Proof.
  intros Hrun. revert counts w.
  induction ps as [|p ps IH]; intros [s f] w.
  - simpl. unfold ret, count_ok, count_failed. simpl.
    rewrite !Nat.add_0_r. reflexivity.
  - cbn [for_ attempts_trace]. unfold bind. rewrite attempt_eq.
    rewrite count_ok_cons, count_failed_cons. cbn [fst snd].
    pose proof (Hrun p (fs w) (calls w) (list_elem_of_here _ _)) as Hp.
    destruct (tool env (fs w) (calls w) (cmd_of p)) as [code err out|? ?|];
      [|done..].
    rewrite IH, attempts_world_cons.
    + cbn [exit_ok].
      destruct (code =? 0)%Z; cbn [fst snd];
        rewrite !Nat.add_assoc, ?Nat.add_0_r; reflexivity.
    + intros p' f' h' Hin. apply Hrun. by apply list_elem_of_further.
Qed.

(** With the executable missing, the first attempt is the last. *)
Lemma for_attempts_missing p ps counts w :
  tool_missing env →
  for_ (p :: ps) step counts w = (Raised OSError, step_world p w).
Proof.
  intros Hmiss. cbn [for_]. unfold bind. rewrite attempt_eq.
  by rewrite Hmiss.
Qed.

End Loop.

(** ** The two loops of the script *)

Lemma print_eq s w : print s w = (Returned tt, print_world s w).
Proof. reflexivity. Qed.

Lemma generate_button_cell_stls_eq env output_dir w :
  generate_button_cell_stls env output_dir w
  = for_ (table_pairs BUTTON_CELL_COMPAT)
         (attempt env button_scad button_cell_params output_dir) (0, 0)
         (print_world button_banner w).
Proof.
  unfold generate_button_cell_stls, bind at 1. rewrite print_eq.
  exact (for_table_pairs BUTTON_CELL_COMPAT
           (attempt env button_scad button_cell_params output_dir) (0, 0) _).
Qed.

Lemma generate_cylinder_stls_eq env output_dir w :
  generate_cylinder_stls env output_dir w
  = for_ (table_pairs CYLINDER_COMPAT)
         (attempt env cylinder_scad cylinder_params output_dir) (0, 0)
         (print_world cylinder_banner w).
Proof.
  unfold generate_cylinder_stls, bind at 1. rewrite print_eq.
  exact (for_table_pairs CYLINDER_COMPAT
           (attempt env cylinder_scad cylinder_params output_dir) (0, 0) _).
Qed.

Lemma output_arg_openscad_cmd scad_file output_file params :
  output_arg (openscad_cmd scad_file output_file params)
  = Some (path_str output_file).
Proof. reflexivity. Qed.

Lemma for_attempts_contract env scad_file build_params table output_dir w0 w :
  tool_runs env →
  calls w = calls w0 →
  one_attempt_per_pair scad_file build_params table output_dir w0
    (for_ (table_pairs table)
       (attempt env scad_file build_params output_dir) (0, 0) w).
Proof.
  intros Hrun Hcalls.
  set (tr := attempts_trace env scad_file build_params output_dir
               (table_pairs table) w).
  exists (count_ok tr), (count_failed tr),
    (attempts_world env scad_file build_params output_dir
       (table_pairs table) w), tr.
  split_and!.
  - rewrite for_attempts_runs; [done|]. intros p f h _. apply Hrun.
  - by rewrite attempts_world_calls, Hcalls.
  - apply attempts_trace_cmds.
  - rewrite <- (map_map fst output_arg). unfold tr.
    rewrite attempts_trace_cmds, map_map. reflexivity.
  - unfold tr. by rewrite attempts_trace_length, table_files_pairs.
  - apply count_ok_failed.
Qed.

(** C2 (amended): when every invocation of the tool starts and comes
    back with an exit status, each generation loop makes exactly one
    invocation per (battery, host) pair of its table, in table order,
    each for the output file "{battery}-{host}.stl" of the given
    directory; the attempts number the sum of the host-list lengths, and
    the two returned counters add up to that number. *)
Theorem generation_loops_attempt_every_pair (env : Env) (output_dir : path)
    (w : World) :
  tool_runs env →
  one_attempt_per_pair button_scad button_cell_params BUTTON_CELL_COMPAT
    output_dir w (generate_button_cell_stls env output_dir w) ∧
  one_attempt_per_pair cylinder_scad cylinder_params CYLINDER_COMPAT
    output_dir w (generate_cylinder_stls env output_dir w).
Proof.
  intros Hrun. split.
  - rewrite generate_button_cell_stls_eq. by apply for_attempts_contract.
  - rewrite generate_cylinder_stls_eq. by apply for_attempts_contract.
Qed.

(** C3 (amended): when the external process exits and its captured
    output decodes as text, [run_openscad] returns [(True, None)] exactly
    when the exit status is zero, and on a nonzero status returns [False]
    with the captured standard error; when the captured output does not
    decode, it raises [UnicodeDecodeError] whatever the exit status, and
    when the process cannot be started it raises the start-up error. *)
Theorem run_openscad_reports_exit_status (env : Env)
    (scad_file output_file : path) (params : list (string * string))
    (w : World) (r : proc_result) :
  tool env (fs w) (calls w) (openscad_cmd scad_file output_file params) = r →
  let run := run_openscad env scad_file output_file params w in
  match r with
  | Exited code err _ =>
      (run.1 = Returned (true, None) ↔ code = 0%Z) ∧
      (code ≠ 0%Z → run.1 = Returned (false, Some err))
  | Undecodable _ _ => run.1 = Raised UnicodeDecodeError
  | NotStarted => run.1 = Raised OSError
  end.
Proof.
  intros Htool.
  unfold run_openscad, try_except, subprocess_run_check, print, print_end,
    bind, ret.
  cbn [fs stdout calls ticks]. rewrite Htool.
  destruct r as [code err out|code out|]; [|done..].
  destruct (Z.eqb_spec code 0) as [->|Hne]; cbn [fst].
  - split; [done | intros []; reflexivity].
  - split; [split; [discriminate | done] | done].
Qed.

(** ** The loops against the parameterized driver *)

Lemma attempt_world_same_but_stdout env scad_file build_params output_dir p
    w1 w2 :
  same_but_stdout w1 w2 →
  same_but_stdout
    (attempt_world env scad_file build_params output_dir p w1)
    (attempt_world env scad_file build_params output_dir p w2).
Proof.
  intros (Hfs & Hcalls & Hticks). unfold attempt_world, same_but_stdout.
  cbn [fs calls ticks]. by rewrite Hfs, Hcalls, Hticks.
Qed.

(** Nothing a loop does depends on what is already on the console. *)
Lemma for_attempts_same_but_stdout env scad_file build_params output_dir
    ps counts w1 w2 :
  same_but_stdout w1 w2 →
  (for_ ps (attempt env scad_file build_params output_dir) counts w1).1
  = (for_ ps (attempt env scad_file build_params output_dir) counts w2).1 ∧
  same_but_stdout
    (for_ ps (attempt env scad_file build_params output_dir) counts w1).2
    (for_ ps (attempt env scad_file build_params output_dir) counts w2).2.
Proof.
  revert counts w1 w2. induction ps as [|p ps IH]; intros counts w1 w2 Hw.
  - done.
  - cbn [for_]. unfold bind. rewrite !attempt_eq.
    pose proof (attempt_world_same_but_stdout env scad_file build_params
                  output_dir p w1 w2 Hw) as Hw'.
    destruct Hw as (Hfs & Hcalls & _). rewrite Hfs, Hcalls.
    destruct (tool env (fs w2) (calls w2) _) as [code err out|code out|].
    + by apply IH.
    + done.
    + done.
Qed.

(** C9: each generation loop returns the same counters, issues the same
    sequence of tool invocations and leaves the same files as the single
    parameterized driver instantiated with the loop's template file,
    parameter builder and table, whatever the tool does. *)
Theorem loops_refine_generation_driver (env : Env) (output_dir : path)
    (w : World) :
  let button := generate_button_cell_stls env output_dir w in
  let button' := generation_driver env button_scad button_cell_params
                   BUTTON_CELL_COMPAT output_dir w in
  let cylinder := generate_cylinder_stls env output_dir w in
  let cylinder' := generation_driver env cylinder_scad cylinder_params
                     CYLINDER_COMPAT output_dir w in
  (button.1 = button'.1 ∧ calls button.2 = calls button'.2 ∧
   fs button.2 = fs button'.2) ∧
  (cylinder.1 = cylinder'.1 ∧ calls cylinder.2 = calls cylinder'.2 ∧
   fs cylinder.2 = fs cylinder'.2).
Proof.
  cbv zeta. rewrite generate_button_cell_stls_eq, generate_cylinder_stls_eq.
  unfold generation_driver. split.
  - destruct (for_attempts_same_but_stdout env button_scad button_cell_params
                output_dir (table_pairs BUTTON_CELL_COMPAT) (0, 0)
                (print_world button_banner w) w) as (Hr & Hfs & Hcalls & _);
      [done|]. by rewrite Hr, Hfs, Hcalls.
  - destruct (for_attempts_same_but_stdout env cylinder_scad cylinder_params
                output_dir (table_pairs CYLINDER_COMPAT) (0, 0)
                (print_world cylinder_banner w) w) as (Hr & Hfs & Hcalls & _);
      [done|]. by rewrite Hr, Hfs, Hcalls.
Qed.

(** ** Formatting the clock *)

Lemma string_app_inj_length (s1 s2 t1 t2 : string) :
  String.length s1 = String.length s2 →
  s1 +:+ t1 = s2 +:+ t2 → s1 = s2 ∧ t1 = t2.
Proof.
  revert s2. induction s1 as [|c s1 IH]; intros [|c' s2] Hlen Heq;
    simpl in *; try discriminate.
  - done.
  - injection Heq as -> Heq. injection Hlen as Hlen.
    destruct (IH s2 Hlen Heq) as [-> ->]. done.
Qed.

Lemma fmt_dec_exact_2 n : n < 100 → fmt_dec_exact 2 n = true.
Proof.
  intros Hn.
  assert (Hall : forallb (fmt_dec_exact 2) (seq 0 100) = true)
    by (vm_compute; reflexivity).
  rewrite forallb_forall in Hall. apply Hall, in_seq. lia.
Qed.

Lemma fmt_dec_exact_4 n : n < 100 * 100 → fmt_dec_exact 4 n = true.
Proof.
  intros Hn.
  assert (Hall : forallb (fmt_dec_exact 4) (seq 0 (100 * 100)) = true)
    by (vm_compute; reflexivity).
  rewrite forallb_forall in Hall. apply Hall, in_seq. lia.
Qed.

Lemma fmt_dec_exact_inj w n m s t :
  fmt_dec_exact w n = true → fmt_dec_exact w m = true →
  fmt_dec w n +:+ s = fmt_dec w m +:+ t → n = m ∧ s = t.
Proof.
  unfold fmt_dec_exact. rewrite !andb_true_iff, !Nat.eqb_eq.
  intros [Hln Hpn] [Hlm Hpm] Heq.
  apply string_app_inj_length in Heq as [Hfmt ->]; [|congruence].
  split; [|done]. rewrite <- Hpn, <- Hpm, Hfmt. done.
Qed.

Lemma strftime_release_inj t1 t2 :
  valid_datetime t1 → valid_datetime t2 →
  strftime_release t1 = strftime_release t2 → to_seconds t1 = to_seconds t2.
Proof.
  intros (Hy1 & Hm1 & Hd1 & HH1 & HM1 & HS1 & _)
         (Hy2 & Hm2 & Hd2 & HH2 & HM2 & HS2 & _) Heq.
  unfold strftime_release in Heq.
  apply (inj (String.app "Release-")) in Heq.
  apply fmt_dec_exact_inj in Heq as [Hy Heq];
    [|apply fmt_dec_exact_4; lia..].
  apply (inj (String.app "-")) in Heq.
  apply fmt_dec_exact_inj in Heq as [Hm Heq];
    [|apply fmt_dec_exact_2; lia..].
  apply (inj (String.app "-")) in Heq.
  apply fmt_dec_exact_inj in Heq as [Hd Heq];
    [|apply fmt_dec_exact_2; lia..].
  apply (inj (String.app "_")) in Heq.
  apply fmt_dec_exact_inj in Heq as [HH Heq];
    [|apply fmt_dec_exact_2; lia..].
  apply fmt_dec_exact_inj in Heq as [HM Heq];
    [|apply fmt_dec_exact_2; lia..].
  assert (HS : second t1 = second t2).
  { apply (fmt_dec_exact_inj 2 _ _ EmptyString EmptyString);
      [apply fmt_dec_exact_2; lia..|]. by rewrite Heq. }
  unfold to_seconds. congruence.
Qed.

(** C8 (amended): two clock readings give the same release directory
    exactly when they agree down to the second; readings that differ at
    second resolution give distinct directories. *)
Theorem release_dir_distinct_iff_seconds_differ (t1 t2 : datetime) :
  valid_datetime t1 → valid_datetime t2 →
  (release_dir_of t1 = release_dir_of t2 ↔ to_seconds t1 = to_seconds t2).
Proof.
  intros Hv1 Hv2. split.
  - unfold release_dir_of, path_div. intros Heq.
    apply strftime_release_inj; [done..|].
    apply app_inv_head in Heq. congruence.
  - unfold to_seconds, release_dir_of, strftime_release.
    intros [= -> -> -> -> -> ->]. done.
Qed.

(** ** Path strings *)

Lemma no_slash_app s t :
  Str.no_slash (s +:+ t) = Str.no_slash s && Str.no_slash t.
Proof.
  induction s as [|c s IH]; [done|]. simpl. rewrite IH.
  by rewrite andb_assoc.
Qed.

Lemma no_slash_repeat_0 n : Str.no_slash (Str.repeat_str "0" n) = true.
Proof. induction n as [|n IH]; [done|]. simpl. exact IH. Qed.

Lemma no_slash_pretty_N_char x :
  negb (Ascii.eqb (pretty_N_char x) Str.slash) = true.
Proof. unfold pretty_N_char. by repeat case_match. Qed.

Lemma no_slash_pretty_N_go x s :
  Str.no_slash s = true → Str.no_slash (pretty_N_go x s) = true.
Proof.
  revert s. induction (N.lt_wf_0 x) as [x _ IH]; intros s Hs.
  destruct (decide (x = 0)%N) as [->|Hx].
  - by rewrite pretty_N_go_0.
  - rewrite pretty_N_go_step by lia. apply IH.
    + apply N.div_lt; lia.
    + simpl. by rewrite no_slash_pretty_N_char, Hs.
Qed.

Lemma no_slash_fmt_dec w n : Str.no_slash (fmt_dec w n) = true.
Proof.
  unfold fmt_dec, Str.zfill. rewrite no_slash_app, no_slash_repeat_0.
  unfold pretty, pretty_nat, pretty, pretty_N. case_decide; [done|].
  by apply no_slash_pretty_N_go.
Qed.

Lemma no_slash_strftime_release t : Str.no_slash (strftime_release t) = true.
Proof.
  unfold strftime_release.
  by rewrite !no_slash_app, !no_slash_fmt_dec.
Qed.

Lemma split_slash_cons_no_slash a b :
  Str.no_slash a = true →
  Str.split_slash (a +:+ String Str.slash b) = a :: Str.split_slash b.
Proof.
  induction a as [|c a IH]; intros Ha; [done|].
  simpl in Ha. apply andb_true_iff in Ha as [Hc Ha].
  change (String c a +:+ String Str.slash b)
    with (String c (a +:+ String Str.slash b)).
  cbn [Str.split_slash].
  apply negb_true_iff in Hc. rewrite Hc, IH by done. done.
Qed.

Lemma split_slash_join dir name :
  dir ≠ [] → Forall (λ c, Str.no_slash c = true) dir →
  Str.split_slash (Str.join "/" (dir ++ [name]))
  = dir ++ Str.split_slash name.
Proof.
  induction dir as [|d dir IH]; intros Hne Hdir; [done|].
  apply Forall_cons in Hdir as [Hd Hdir].
  destruct dir as [|d' dir].
  - simpl. by apply split_slash_cons_no_slash.
  - change (Str.join "/" ((d :: d' :: dir) ++ [name]))
      with (d +:+ String Str.slash (Str.join "/" ((d' :: dir) ++ [name]))).
    rewrite split_slash_cons_no_slash by done.
    by rewrite IH.
Qed.

Lemma path_str_div dir name :
  path_str (dir // name) = Str.join "/" (dir ++ [name]).
Proof. unfold path_div. by destruct dir. Qed.

(** The file the tool is asked to write lies under the output
    directory. *)
Lemma output_path_under dir name :
  dir ≠ [] → Forall (λ c, Str.no_slash c = true) dir →
  dir `prefix_of` Str.split_slash (path_str (dir // name)).
Proof.
  intros Hne Hdir. rewrite path_str_div, split_slash_join by done.
  by apply prefix_app_r.
Qed.

Lemma stl_dir_no_slash t :
  stl_dir_of t ≠ [] ∧ Forall (λ c, Str.no_slash c = true) (stl_dir_of t).
Proof.
  split; [done|]. unfold stl_dir_of, release_dir_of, path_div. simpl.
  repeat constructor. apply no_slash_strftime_release.
Qed.

(** ** What a generation loop leaves alone *)

Section Frame.
Variable env : Env.
Variable scad_file : path.
Variable build_params : string → string → list (string * string).
Variable output_dir : path.
Hypothesis output_dir_nonempty : output_dir ≠ [].
Hypothesis output_dir_no_slash :
  Forall (λ c, Str.no_slash c = true) output_dir.

Lemma attempt_world_fs_frame p w q :
  ¬ output_dir `prefix_of` q →
  fs (attempt_world env scad_file build_params output_dir p w) !! q
  = fs w !! q.
Proof.
  intros Hq. unfold attempt_world, tool_writes, attempt_cmd. cbn [fs].
  rewrite output_arg_openscad_cmd.
  destruct (written (tool env _ _ _)) as [c|]; [|done].
  apply lookup_insert_ne. intros <-. apply Hq.
  by apply output_path_under.
Qed.

Lemma attempts_world_fs_frame ps w q :
  ¬ output_dir `prefix_of` q →
  fs (attempts_world env scad_file build_params output_dir ps w) !! q
  = fs w !! q.
Proof.
  intros Hq. revert w. induction ps as [|p ps IH]; intros w; [done|].
  rewrite attempts_world_cons, IH. by apply attempt_world_fs_frame.
Qed.

End Frame.

(** ** File-system steps of [main] *)

Lemma bind_returned {A B} (m : M A) (k : A → M B) w a w' :
  m w = (Returned a, w') → bind m k w = k a w'.
Proof. intros H. unfold bind. by rewrite H. Qed.

Lemma set_fs_same w : set_fs (fs w) w = w.
Proof. by destruct w. Qed.

Lemma mkdir_exist_ok_eq p w :
  fs w !! p = None ∨ fs w !! p = Some Dir →
  is_dir (fs w) (removelast p) = true →
  mkdir_exist_ok p w = (Returned tt, set_fs (<[p := Dir]> (fs w)) w).
Proof.
  intros Hp Hparent. unfold mkdir_exist_ok, bind, get_fs, put_fs.
  destruct Hp as [Hp|Hp]; rewrite Hp.
  - by rewrite Hparent.
  - unfold ret. by rewrite insert_id, set_fs_same.
Qed.

Lemma release_fresh_spec t f :
  release_fresh t f = true →
  (f !! ["releases"] = None ∨ f !! ["releases"] = Some Dir) ∧
  (∀ q, release_dir_of t `prefix_of` q → f !! q = None).
Proof.
  unfold release_fresh. rewrite andb_true_iff, bool_decide_eq_true.
  intros [Hrel Hall]. split.
  - destruct (f !! ["releases"]) as [[c|]|]; auto. discriminate.
  - intros q Hq. destruct (f !! q) as [nd|] eqn:Hlook; [|done].
    destruct (Hall q nd Hlook Hq).
Qed.

Lemma sources_regular_spec f q :
  sources_regular f = true → is_source q = true → f !! q ≠ Some Dir.
Proof.
  unfold sources_regular. rewrite bool_decide_eq_true.
  intros Hall Hsrc Hq. specialize (Hall q Dir Hq eq_refl). congruence.
Qed.

Lemma mkdir_parents_eq t w :
  release_fresh t (fs w) = true →
  mkdir_parents (stl_dir_of t) w
  = (Returned tt, set_fs (mkdirs_fs t (fs w)) w).
Proof.
  intros Hfresh. apply release_fresh_spec in Hfresh as [Hrel Hnone].
  unfold mkdir_parents, for_each, stl_dir_of, release_dir_of, path_div in *.
  cbn [app length seq map take for_].
  erewrite bind_returned; [|by apply mkdir_exist_ok_eq].
  erewrite bind_returned; cycle 1.
  { apply mkdir_exist_ok_eq; cbn [fs set_fs].
    - left. rewrite lookup_insert_ne by done. by apply Hnone.
    - cbn. by rewrite lookup_insert_eq. }
  erewrite bind_returned; cycle 1.
  { apply mkdir_exist_ok_eq; cbn [fs set_fs].
    - left. rewrite !lookup_insert_ne by done. apply Hnone.
      by exists ["stls"].
    - cbn. by rewrite lookup_insert_eq. }
  reflexivity.
Qed.

Lemma mkdirs_fs_tail_ready t f :
  release_fresh t f = true → sources_regular f = true →
  tail_ready (release_dir_of t) (mkdirs_fs t f).
Proof.
  intros Hfresh Hsrc. apply release_fresh_spec in Hfresh as [_ Hnone].
  unfold tail_ready, mkdirs_fs, stl_dir_of. split_and!.
  - rewrite lookup_insert_ne, lookup_insert_eq; [done|].
    unfold path_div. intros Heq. apply (f_equal length) in Heq.
    rewrite length_app in Heq. simpl in Heq. lia.
  - intros n Hn. rewrite !lookup_insert_ne.
    + rewrite Hnone; [done|]. by exists [n].
    + done.
    + unfold path_div. intros Heq. apply (f_equal length) in Heq.
      rewrite length_app in Heq. simpl in Heq. lia.
    + unfold path_div. intros Heq. apply app_inv_head in Heq. congruence.
  - intros q Hq. rewrite !lookup_insert_ne.
    + by apply sources_regular_spec.
    + intros <-. discriminate.
    + intros <-. discriminate.
    + intros <-. discriminate.
Qed.

Section Assemble.
Variable env : Env.
Variable rd : path.
Hypothesis rd_nonempty : rd ≠ [].

Lemma release_entry_not_source n : is_source (rd // n) = false.
Proof.
  unfold path_div. destruct rd as [|a [|b r]]; [done|done|].
  by destruct r.
Qed.

Lemma source_name_not_stls q :
  is_source q = true → List.last q EmptyString ≠ "stls".
Proof.
  destruct q as [|n [|m q]]; [done| |done]. simpl.
  intros Hsrc ->. by vm_compute in Hsrc.
Qed.

Lemma write_text_release_root n c w :
  tail_ready rd (fs w) → n ≠ "stls" →
  write_text (rd // n) c w
  = (Returned tt, set_fs (<[rd // n := File c]> (fs w)) w).
Proof.
  intros (Hrd & Hdst & _) Hn.
  unfold write_text, bind, get_fs, put_fs, is_dir.
  assert (Hne : rd // n ≠ []) by (unfold path_div; by destruct rd).
  destruct (rd // n) as [|a p] eqn:Hp; [done|]. rewrite <- Hp.
  specialize (Hdst n Hn).
  destruct (fs w !! (rd // n)) as [[c'|]|]; try done;
    unfold path_div; rewrite removelast_last;
    (destruct rd as [|b r]; [done|]); by rewrite Hrd.
Qed.

Lemma tail_ready_insert_file n c f :
  tail_ready rd f → tail_ready rd (<[rd // n := File c]> f).
Proof.
  intros (Hrd & Hdst & Hsrc). split_and!.
  - rewrite lookup_insert_ne; [done|].
    unfold path_div. intros Heq. apply (f_equal length) in Heq.
    rewrite length_app in Heq. simpl in Heq. lia.
  - intros m Hm. rewrite lookup_insert.
    case_decide; [done | by apply Hdst].
  - intros q Hq. rewrite lookup_insert.
    case_decide; [done | by apply Hsrc].
Qed.

Lemma shutil_copy_release_root src w :
  tail_ready rd (fs w) → is_source src = true → is_Some (fs w !! src) →
  shutil_copy src (rd // List.last src EmptyString) w
  = (Returned tt, set_fs (copy_fs rd (fs w) src) w).
Proof.
  intros Hready Hsrc [nd Hnd].
  pose proof Hready as (Hrd & Hdst & Hsources).
  pose proof (source_name_not_stls src Hsrc) as Hname.
  assert (∃ c, nd = File c) as [c ->].
  { destruct nd as [c|]; [eauto|]. by destruct (Hsources src Hsrc). }
  unfold shutil_copy, copy_fs. rewrite Hnd.
  unfold bind at 1. unfold get_fs at 1.
  assert (Hnotdir : is_dir (fs w) (rd // List.last src EmptyString) = false).
  { unfold is_dir. specialize (Hdst _ Hname).
    assert (rd // List.last src EmptyString ≠ [])
      by (unfold path_div; by destruct rd).
    destruct (rd // List.last src EmptyString) as [|a p]; [done|].
    destruct (fs w !! (a :: p)) as [[c'|]|]; done. }
  rewrite Hnotdir.
  erewrite bind_returned; cycle 1.
  { unfold read_text, bind, get_fs. rewrite Hnd. reflexivity. }
  by apply write_text_release_root.
Qed.

Lemma copy_fs_tail_ready f src : tail_ready rd f → tail_ready rd (copy_fs rd f src).
Proof.
  intros Hready. unfold copy_fs.
  destruct (f !! src) as [[c|]|]; [|done..].
  by apply tail_ready_insert_file.
Qed.

Lemma copy_fs_is_Some f src q : is_Some (f !! q) → is_Some (copy_fs rd f src !! q).
Proof.
  intros Hq. unfold copy_fs. destruct (f !! src) as [[c|]|]; [|done..].
  rewrite lookup_insert. by case_decide.
Qed.

(** The copy loop of [main] over the sources [xs]. *)
Lemma copy_loop_eq xs w :
  tail_ready rd (fs w) →
  Forall (λ x, is_source x = true ∧ is_Some (fs w !! x)) xs →
  ∃ w',
    for_each xs (λ scad_file,
      shutil_copy scad_file (rd // List.last scad_file EmptyString) ;;
      print ("  " +:+ List.last scad_file EmptyString)) w
    = (Returned tt, w') ∧
    fs w' = foldl (copy_fs rd) (fs w) xs ∧
    calls w' = calls w ∧ ticks w' = ticks w.
Proof.
  revert w. induction xs as [|x xs IH]; intros w Hready Hxs.
  - by exists w.
  - apply Forall_cons in Hxs as [[Hsrc Hx] Hxs].
    unfold for_each in *. cbn [for_].
    erewrite bind_returned; cycle 1.
    { erewrite bind_returned; [|by apply shutil_copy_release_root].
      apply print_eq. }
    edestruct (IH (print_world ("  " +:+ List.last x EmptyString)
                     (set_fs (copy_fs rd (fs w) x) w)))
      as (w' & Hrun & Hfs & Hcalls & Hticks).
    + cbn [fs print_world set_fs]. by apply copy_fs_tail_ready.
    + cbn [fs print_world set_fs].
      eapply Forall_impl; [exact Hxs|]. intros y [Hy1 Hy2].
      split; [done | by apply copy_fs_is_Some].
    + exists w'. by rewrite Hrun.
Qed.

Lemma glob_list_sources f x :
  x ∈ glob_list ".scad" f → is_source x = true ∧ is_Some (f !! x).
Proof.
  unfold glob_list. rewrite list_elem_of_fmap.
  intros ([q nd] & -> & Hin). apply elem_of_map_to_list in Hin.
  apply map_lookup_filter_Some in Hin as [Hlook [Hlen Hends]].
  cbn [fst] in *. split; [|by eauto].
  destruct q as [|n [|m q]]; try done.
  apply Forall_cons in Hends as [Hn _]. simpl. rewrite Hn.
  by rewrite orb_true_r.
Qed.

Lemma create_manifest_eq w :
  tail_ready rd (fs w) →
  ∃ w',
    create_manifest env rd w = (Returned tt, w') ∧
    fs w' = <[rd // "MANIFEST.txt" :=
                File (manifest_text (clock env (ticks w)))]> (fs w) ∧
    calls w' = calls w ∧ ticks w' = S (ticks w).
Proof.
  intros Hready. unfold create_manifest.
  erewrite bind_returned; [|reflexivity].
  erewrite bind_returned; cycle 1.
  { by apply write_text_release_root. }
  rewrite print_eq. eexists. split; [reflexivity|]. done.
Qed.

End Assemble.

(** ** [main], phase by phase *)

Lemma main_eq env w :
  main env w
  = (t <- now env ;;
     print ("📦 Creating release: " +:+ strftime_release t +:+ Str.nl) ;;
     mkdir_parents (stl_dir_of t) ;;
     button <- generate_button_cell_stls env (stl_dir_of t) ;;
     print EmptyString ;;
     cylinder <- generate_cylinder_stls env (stl_dir_of t) ;;
     main_assemble env (release_dir_of t) button cylinder) w.
Proof. reflexivity. Qed.

Lemma main_assemble_eq env rd button cylinder w :
  rd ≠ [] → tail_ready rd (fs w) →
  ∃ w',
    main_assemble env rd button cylinder w
    = (Returned (if button.2 + cylinder.2 =? 0 then 0%Z else 1%Z), w') ∧
    fs w' = assemble_fs rd (clock env (ticks w)) (fs w) ∧
    calls w' = calls w ∧ ticks w' = S (ticks w).
Proof.
  intros Hrd Hready. unfold main_assemble. cbv zeta.
  erewrite bind_returned; [|apply print_eq].
  erewrite bind_returned; [|reflexivity].
  set (w1 := print_world _ w).
  destruct (copy_loop_eq rd Hrd (glob_list ".scad" (fs w1)) w1)
    as (w2 & Hcopy & Hfs2 & Hcalls2 & Hticks2).
  { done. }
  { apply Forall_forall. intros x Hx. by apply glob_list_sources. }
  erewrite bind_returned; [|exact Hcopy].
  assert (Hready2 : tail_ready rd (fs w2)).
  { rewrite Hfs2. clear -Hready Hrd. change (fs w1) with (fs w).
    generalize (glob_list ".scad" (fs w)). intros xs.
    revert Hready. generalize (fs w). induction xs as [|x xs IH]; [done|].
    intros f Hf. simpl. apply IH. by apply copy_fs_tail_ready. }
  erewrite bind_returned; [|reflexivity].
  assert (∃ w3, (if bool_decide (is_Some (fs w2 !! ["README.md"]))
                 then shutil_copy ["README.md"] (rd // "README.md") ;;
                      print "  README.md"
                 else ret tt) w2 = (Returned tt, w3) ∧
                fs w3 = copy_fs rd (fs w2) ["README.md"] ∧
                calls w3 = calls w2 ∧ ticks w3 = ticks w2)
    as (w3 & Hreadme & Hfs3 & Hcalls3 & Hticks3).
  { case_bool_decide as Hex.
    - eexists. split.
      + erewrite bind_returned;
          [|by apply (shutil_copy_release_root rd Hrd ["README.md"])].
        apply print_eq.
      + done.
    - exists w2. split; [done|]. split; [|done].
      unfold copy_fs. destruct (fs w2 !! ["README.md"]); [|done].
      destruct Hex. eauto. }
  erewrite bind_returned; [|exact Hreadme].
  destruct (create_manifest_eq env rd Hrd w3)
    as (w4 & Hman & Hfs4 & Hcalls4 & Hticks4).
  { rewrite Hfs3. by apply copy_fs_tail_ready. }
  erewrite bind_returned; [|exact Hman].
  erewrite bind_returned; [|apply print_eq].
  erewrite bind_returned; [|apply print_eq].
  assert (Hfs : fs w4 = assemble_fs rd (clock env (ticks w)) (fs w)).
  { rewrite Hfs4, Hfs3, Hfs2, Hticks3, Hticks2. reflexivity. }
  assert (Hcalls : calls w4 = calls w).
  { rewrite Hcalls4, Hcalls3, Hcalls2. reflexivity. }
  assert (Hticks : ticks w4 = S (ticks w)).
  { rewrite Hticks4, Hticks3, Hticks2. reflexivity. }
  destruct (0 <? button.2 + cylinder.2).
  - erewrite bind_returned; [|apply print_eq].
    erewrite bind_returned; [|apply print_eq].
    erewrite bind_returned; [|apply print_eq].
    eexists. split; [reflexivity|]. done.
  - erewrite bind_returned; [|reflexivity].
    erewrite bind_returned; [|apply print_eq].
    erewrite bind_returned; [|apply print_eq].
    eexists. split; [reflexivity|]. done.
Qed.

Lemma tool_runs_on_tables_of_runs env : tool_runs env → tool_runs_on_tables env.
Proof. intros Hrun f h d p. split; intros _; apply Hrun. Qed.

Lemma tail_ready_agree t f f' :
  agree_outside (stl_dir_of t) f f' →
  tail_ready (release_dir_of t) f' → tail_ready (release_dir_of t) f.
Proof.
  intros Hagree (Hrd & Hdst & Hsrc). split_and!.
  - rewrite Hagree; [done|]. intros [k Hk].
    apply (f_equal length) in Hk. unfold stl_dir_of, path_div in Hk.
    rewrite !length_app in Hk. simpl in Hk. lia.
  - intros n Hn. rewrite Hagree; [by apply Hdst|]. intros [k Hk].
    unfold stl_dir_of, path_div in Hk. rewrite <- app_assoc in Hk.
    apply app_inv_head in Hk. simpl in Hk. congruence.
  - intros q Hq. rewrite Hagree; [by apply Hsrc|]. intros [k ->].
    discriminate.
Qed.

Lemma agree_outside_trans d f1 f2 f3 :
  agree_outside d f1 f2 → agree_outside d f2 f3 → agree_outside d f1 f3.
Proof. intros H12 H23 q Hq. by rewrite H12, H23. Qed.

Lemma print_world_fs s w : fs (print_world s w) = fs w.
Proof. reflexivity. Qed.

Lemma print_world_calls s w : calls (print_world s w) = calls w.
Proof. reflexivity. Qed.

Lemma print_world_ticks s w : ticks (print_world s w) = ticks w.
Proof. reflexivity. Qed.

(** The world after the two loops, for any two lists of pairs: nothing
    changed outside the output directory, no clock reading was taken, and
    the calls are those of the first loop followed by the second's. *)
Lemma generation_phase env output_dir psb psc w :
  output_dir ≠ [] → Forall (λ c, Str.no_slash c = true) output_dir →
  let wb := print_world button_banner w in
  let w2 := attempts_world env button_scad button_cell_params output_dir
              psb wb in
  let wc := print_world cylinder_banner (print_world EmptyString w2) in
  let w3 := attempts_world env cylinder_scad cylinder_params output_dir
              psc wc in
  agree_outside output_dir (fs w3) (fs w) ∧
  ticks w3 = ticks w ∧
  calls w3
  = calls w
    ++ attempts_trace env button_scad button_cell_params output_dir psb wb
    ++ attempts_trace env cylinder_scad cylinder_params output_dir psc wc.
Proof.
  intros Hne Hslash. cbv zeta. split_and!.
  - intros q Hq.
    rewrite attempts_world_fs_frame, !print_world_fs by done.
    rewrite attempts_world_fs_frame, print_world_fs by done. reflexivity.
  - rewrite attempts_world_ticks, !print_world_ticks.
    rewrite attempts_world_ticks, print_world_ticks. reflexivity.
  - rewrite attempts_world_calls, !print_world_calls.
    rewrite attempts_world_calls, print_world_calls.
    symmetry. apply app_assoc.
Qed.

(** [main] runs to its [return] from a ready state when the tool can be
    started: the exit status is decided by the calls the two loops made,
    and the files outside [stls] are assembled from a file system that
    the loops did not change there. *)
Lemma main_returns env w :
  tool_runs_on_tables env → run_ready env w = true →
  let t := clock env (ticks w) in
  ∃ w' wb wc f3,
    let trb := attempts_trace env button_scad button_cell_params
                 (stl_dir_of t) (table_pairs BUTTON_CELL_COMPAT) wb in
    let trc := attempts_trace env cylinder_scad cylinder_params
                 (stl_dir_of t) (table_pairs CYLINDER_COMPAT) wc in
    main env w
    = (Returned (if count_failed (trb ++ trc) =? 0 then 0%Z else 1%Z), w') ∧
    calls w' = calls w ++ trb ++ trc ∧
    agree_outside (stl_dir_of t) f3 (mkdirs_fs t (fs w)) ∧
    fs w' = assemble_fs (release_dir_of t) (clock env (S (ticks w))) f3.
Proof.
  intros Hrun Hready t.
  unfold run_ready in Hready. fold t in Hready.
  apply andb_true_iff in Hready as [Hfresh Hsrc].
  destruct (stl_dir_no_slash t) as [Hne Hslash].
  rewrite main_eq.
  erewrite bind_returned; [|reflexivity]. fold t.
  erewrite bind_returned; [|apply print_eq].
  erewrite bind_returned; [|by apply mkdir_parents_eq].
  set (w1 := set_fs _ _).
  erewrite bind_returned; cycle 1.
  { rewrite generate_button_cell_stls_eq. apply for_attempts_runs.
    intros p f h Hp. by apply Hrun. }
  erewrite bind_returned; [|apply print_eq].
  erewrite bind_returned; cycle 1.
  { rewrite generate_cylinder_stls_eq. apply for_attempts_runs.
    intros p f h Hp. by apply Hrun. }
  destruct (generation_phase env (stl_dir_of t)
              (table_pairs BUTTON_CELL_COMPAT) (table_pairs CYLINDER_COMPAT)
              w1 Hne Hslash) as (Hagree & Hticks3 & Hcalls3).
  set (wb := print_world button_banner w1) in *.
  set (w2 := attempts_world _ _ _ _ _ wb) in *.
  set (wc := print_world cylinder_banner (print_world EmptyString w2)) in *.
  set (w3 := attempts_world _ _ _ _ _ wc) in *.
  set (trb := attempts_trace _ _ _ _ _ wb) in *.
  set (trc := attempts_trace _ _ _ _ _ wc) in *.
  match goal with
  | |- context [main_assemble env ?rd ?b ?c ?w0] =>
      destruct (main_assemble_eq env rd b c w0)
        as (w' & Hmain & Hfs & Hcalls & Hticks)
  end.
  { done. }
  { eapply tail_ready_agree; [exact Hagree|].
    by apply mkdirs_fs_tail_ready. }
  exists w', wb, wc, (fs w3). cbv zeta. fold trb trc. split_and!.
  - rewrite Hmain. cbn [fst snd]. rewrite count_failed_app. reflexivity.
  - rewrite Hcalls, Hcalls3. reflexivity.
  - exact Hagree.
  - rewrite Hfs, Hticks3. reflexivity.
Qed.

(** ** The assembled release *)

Section AssembleFs.
Variable rd : path.
Hypothesis rd_nonempty : rd ≠ [].

Lemma is_source_inv q :
  is_source q = true →
  ∃ n, q = [n] ∧ (n = "README.md" ∨ Str.ends_with ".scad" n = true).
Proof.
  destruct q as [|n [|m q]]; [done| |done]. simpl.
  intros [Heq|Hends]%orb_true_iff; exists n; split; auto.
  left. by apply String.eqb_eq.
Qed.

Lemma release_entry_ne_source n q : is_source q = true → rd // n ≠ q.
Proof.
  intros Hq <-. by rewrite release_entry_not_source in Hq.
Qed.

Lemma copy_fs_lookup_source f src q :
  is_source q = true → copy_fs rd f src !! q = f !! q.
Proof.
  intros Hq. unfold copy_fs. destruct (f !! src) as [[c|]|]; [|done..].
  apply lookup_insert_ne. by apply release_entry_ne_source.
Qed.

(** A copy already in the release root survives the later copies of
    the loop, and the copy of [q] itself puts it there. *)
Lemma copy_fs_keeps f src q c :
  is_source src = true → is_source q = true →
  f !! q = Some (File c) →
  src = q ∨ f !! (rd // List.last q EmptyString) = Some (File c) →
  copy_fs rd f src !! (rd // List.last q EmptyString) = Some (File c).
Proof.
  intros Hsrc Hq Hfq Hcase. unfold copy_fs.
  destruct (decide (src = q)) as [->|Hne].
  - rewrite Hfq. apply lookup_insert_eq.
  - destruct Hcase as [?|Hthere]; [done|].
    destruct (f !! src) as [[c'|]|]; [|done..].
    rewrite lookup_insert_ne; [done|].
    apply is_source_inv in Hsrc as (n & -> & _).
    apply is_source_inv in Hq as (m & -> & _). simpl.
    unfold path_div. intros Heq. apply app_inv_head in Heq. congruence.
Qed.

Lemma copies_keep xs f q c :
  Forall (λ x, is_source x = true) xs → is_source q = true →
  f !! q = Some (File c) →
  q ∈ xs ∨ f !! (rd // List.last q EmptyString) = Some (File c) →
  foldl (copy_fs rd) f xs !! (rd // List.last q EmptyString)
  = Some (File c).
Proof.
  revert f. induction xs as [|x xs IH]; intros f Hxs Hq Hfq Hcase.
  - destruct Hcase as [Hin|?]; [|done]. by apply elem_of_nil in Hin.
  - apply Forall_cons in Hxs as [Hx Hxs]. simpl. apply IH; [done..| |].
    + by rewrite copy_fs_lookup_source.
    + destruct Hcase as [Hin|Hthere].
      * apply elem_of_cons in Hin as [->|Hin]; [|by left].
        right. apply copy_fs_keeps; auto.
      * right. apply copy_fs_keeps; auto.
Qed.

Lemma copies_lookup_source xs f q :
  is_source q = true → foldl (copy_fs rd) f xs !! q = f !! q.
Proof.
  intros Hq. revert f. induction xs as [|x xs IH]; intros f; [done|].
  simpl. by rewrite IH, copy_fs_lookup_source.
Qed.

Lemma glob_list_elem f n nd :
  f !! [n] = Some nd → Str.ends_with ".scad" n = true →
  [n] ∈ glob_list ".scad" f.
Proof.
  intros Hlook Hends. unfold glob_list. apply list_elem_of_fmap.
  exists ([n], nd). split; [done|]. apply elem_of_map_to_list.
  apply map_lookup_filter_Some. split; [done|]. split; [done|].
  by constructor.
Qed.

(** Every source file of the working directory is in the release
    root once [main] is through. *)
Lemma assemble_fs_copies t f q c :
  is_source q = true → f !! q = Some (File c) →
  assemble_fs rd t f !! (rd // List.last q EmptyString) = Some (File c).
Proof.
  intros Hq Hfq. unfold assemble_fs.
  pose proof (is_source_inv q Hq) as (n & -> & Hn).
  assert (Hglob : Forall (λ x, is_source x = true) (glob_list ".scad" f)).
  { apply Forall_forall. intros x Hx.
    by apply glob_list_sources in Hx as [? _]. }
  rewrite lookup_insert_ne; cycle 1.
  { unfold path_div. simpl. intros Heq. apply app_inv_head in Heq.
    injection Heq as <-. by destruct Hn as [?|Hn]; [|vm_compute in Hn]. }
  apply copy_fs_keeps; [done..| |].
  - by rewrite copies_lookup_source.
  - destruct Hn as [->|Hn]; [by left|]. right.
    apply copies_keep; auto. left. by eapply glob_list_elem.
Qed.

Lemma assemble_fs_manifest t f :
  assemble_fs rd t f !! (rd // "MANIFEST.txt")
  = Some (File (manifest_text t)).
Proof. apply lookup_insert_eq. Qed.

End AssembleFs.

Section AgreeOutside.
Variable rd : path.
Variable d : path.
Hypothesis d_long : 1 < length d.

Lemma source_outside q : is_source q = true → ¬ d `prefix_of` q.
Proof.
  intros Hq [k ->]. destruct d as [|a [|b r]]; simpl in *; [lia..|done].
Qed.

Lemma glob_list_agree f1 f2 :
  agree_outside d f1 f2 → glob_list ".scad" f1 = glob_list ".scad" f2.
Proof.
  intros Hagree. unfold glob_list. do 2 f_equal.
  apply map_eq. intros q. rewrite !map_lookup_filter.
  destruct (decide (length q = 1)) as [Hlen|Hlen].
  - rewrite Hagree; [done|]. intros [k ->].
    rewrite length_app in Hlen. lia.
  - destruct (f1 !! q), (f2 !! q); simpl; try done;
      rewrite ?option_guard_False by tauto; done.
Qed.

Lemma copy_fs_agree f1 f2 src :
  agree_outside d f1 f2 → is_source src = true →
  agree_outside d (copy_fs rd f1 src) (copy_fs rd f2 src).
Proof.
  intros Hagree Hsrc q Hq. unfold copy_fs.
  rewrite (Hagree src) by by apply source_outside.
  destruct (f2 !! src) as [[c|]|]; [|by apply Hagree..].
  rewrite !lookup_insert. case_decide; [done | by apply Hagree].
Qed.

Lemma copies_agree xs f1 f2 :
  agree_outside d f1 f2 → Forall (λ x, is_source x = true) xs →
  agree_outside d (foldl (copy_fs rd) f1 xs) (foldl (copy_fs rd) f2 xs).
Proof.
  revert f1 f2. induction xs as [|x xs IH]; intros f1 f2 Hagree Hxs; [done|].
  apply Forall_cons in Hxs as [Hx Hxs]. simpl.
  apply IH; [|done]. by apply copy_fs_agree.
Qed.

(** The assembled release depends on the generation phase only through
    what that phase left outside [d]. *)
Lemma assemble_fs_agree t f1 f2 :
  agree_outside d f1 f2 →
  agree_outside d (assemble_fs rd t f1) (assemble_fs rd t f2).
Proof.
  intros Hagree q Hq. unfold assemble_fs.
  rewrite !lookup_insert. case_decide; [done|].
  rewrite <- (glob_list_agree f1 f2 Hagree).
  apply copy_fs_agree; [|done..].
  apply copies_agree; [done|].
  apply Forall_forall. intros x Hx. by apply glob_list_sources in Hx as [? _].
Qed.

End AgreeOutside.

(** ** The exit status *)

Lemma count_failed_pos cs :
  count_failed cs ≠ 0 ↔ Exists (λ c, exit_ok c.2 = false) cs.
Proof.
  induction cs as [|c cs IH].
  - split; [done | by intros ?%Exists_nil].
  - rewrite count_failed_cons, Exists_cons. destruct (exit_ok c.2); simpl.
    + rewrite IH. split; [by right | by intros [?|?]].
    + split; [by left | lia].
Qed.

(** C1: from a ready state and with a tool that starts, [main] returns;
    the exit status is 0 exactly when every invocation of the run, over
    both battery classes, exited with status 0, and 1 exactly when at
    least one did not. *)
Theorem main_exit_status (env : Env) (w : World) :
  tool_runs env → run_ready env w = true →
  let stl_dir := stl_dir_of (clock env (ticks w)) in
  ∃ code w' new,
    main env w = (Returned code, w') ∧
    calls w' = calls w ++ new ∧
    map fst new
    = map (button_cmd stl_dir) (table_pairs BUTTON_CELL_COMPAT)
      ++ map (cylinder_cmd stl_dir) (table_pairs CYLINDER_COMPAT) ∧
    (code = 0%Z ↔ Forall (λ c, exit_ok c.2 = true) new) ∧
    (code = 1%Z ↔ Exists (λ c, exit_ok c.2 = false) new).
Proof.
  intros Hrun Hready stl_dir.
  destruct (main_returns env w (tool_runs_on_tables_of_runs env Hrun) Hready)
    as (w' & wb & wc & f3 & Hmain & Hcalls & _ & _).
  cbv zeta in Hmain, Hcalls. eexists _, w', _.
  split; [exact Hmain|]. split; [exact Hcalls|]. split.
  - rewrite map_app, !attempts_trace_cmds. reflexivity.
  - rewrite <- count_failed_0, <- count_failed_pos.
    destruct (count_failed _) as [|n]; simpl; split_and!; done.
Qed.

(** ** What the generation outcomes cannot influence *)

(** C10: whatever the tool's invocations return, [main] still copies
    every source file and the readme into the release root and writes
    the manifest; outside the [stls] directory the resulting files are
    exactly those of a run in which every invocation succeeds, started
    from the same state with the same clock. *)
Theorem release_independent_of_outcomes (env env_success : Env) (w : World) :
  tool_runs env →
  (∀ f h cmd, exit_ok (tool env_success f h cmd) = true) →
  (∀ n, clock env_success n = clock env n) →
  run_ready env w = true →
  let t := clock env (ticks w) in
  let release_dir := release_dir_of t in
  ∃ code w1 w2,
    main env w = (Returned code, w1) ∧
    main env_success w = (Returned 0%Z, w2) ∧
    agree_outside (stl_dir_of t) (fs w1) (fs w2) ∧
    fs w1 !! (release_dir // "MANIFEST.txt")
    = Some (File (manifest_text (clock env (S (ticks w))))) ∧
    (∀ q c, is_source q = true → fs w !! q = Some (File c) →
            fs w1 !! (release_dir // List.last q EmptyString)
            = Some (File c)).
Proof.
  intros Hrun Hok Hclock Hready t release_dir.
  assert (Hrun2 : tool_runs env_success).
  { intros f h cmd. specialize (Hok f h cmd).
    by destruct (tool env_success f h cmd). }
  assert (Hready2 : run_ready env_success w = true).
  { unfold run_ready in *. by rewrite Hclock. }
  destruct (main_returns env w (tool_runs_on_tables_of_runs env Hrun) Hready)
    as (w1 & wb1 & wc1 & f1 & Hmain1 & _ & Hagree1 & Hfs1).
  destruct (main_returns env_success w
              (tool_runs_on_tables_of_runs env_success Hrun2) Hready2)
    as (w2 & wb2 & wc2 & f2 & Hmain2 & _ & Hagree2 & Hfs2).
  cbv zeta in *. rewrite !Hclock in *. fold t in Hagree1, Hagree2, Hfs1, Hfs2.
  fold release_dir in Hfs1, Hfs2.
  assert (Hrd : release_dir ≠ []) by done.
  match type of Hmain2 with
  | context [count_failed ?tr] => assert (Hnofail : count_failed tr = 0)
  end.
  { apply count_failed_0, Forall_app. split.
    - eapply Forall_impl; [apply attempts_trace_answers|].
      intros c (f & h & ->). apply Hok.
    - eapply Forall_impl; [apply attempts_trace_answers|].
      intros c (f & h & ->). apply Hok. }
  rewrite Hnofail in Hmain2.
  eexists _, w1, w2. split; [exact Hmain1|]. split; [exact Hmain2|].
  split_and!.
  - rewrite Hfs1, Hfs2. apply assemble_fs_agree; [simpl; lia|].
    intros q Hq. by rewrite Hagree1, Hagree2.
  - rewrite Hfs1. by apply assemble_fs_manifest.
  - intros q c Hq Hlook. rewrite Hfs1.
    apply assemble_fs_copies; [done..|].
    rewrite Hagree1 by (apply source_outside; [simpl; lia | done]).
    unfold mkdirs_fs. rewrite !lookup_insert_ne; [done|..];
      intros <-; discriminate.
Qed.

(** ** A single failing pair *)

Lemma filter_none {A} (P : A → Prop) `{∀ x, Decision (P x)} (l : list A) :
  (∀ x, x ∈ l → ¬ P x) → filter P l = [].
Proof.
  induction l as [|y l IH]; intros Hall; [done|].
  rewrite filter_cons_False by (apply Hall; left).
  apply IH. intros x Hx. apply Hall. by right.
Qed.

Lemma filter_eq_NoDup {A} `{EqDecision A} (x : A) (l : list A) :
  NoDup l → x ∈ l → length (filter (λ y, y = x) l) = 1.
Proof.
  induction 1 as [|y l Hy Hnd IH]; intros Hin.
  - by apply elem_of_nil in Hin.
  - rewrite filter_cons. apply elem_of_cons in Hin as [->|Hin].
    + rewrite decide_True by done. simpl. f_equal.
      rewrite filter_none; [done|]. intros z Hz ->. done.
    + rewrite decide_False by (intros ->; done). by apply IH.
Qed.

Lemma table_pairs_NoDup c : NoDup (table_pairs (class_table c)).
Proof.
  destruct c.
  - apply (bool_decide_unpack (NoDup (table_pairs BUTTON_CELL_COMPAT))).
    by vm_compute.
  - apply (bool_decide_unpack (NoDup (table_pairs CYLINDER_COMPAT))).
    by vm_compute.
Qed.

Section SingleFailure.
Variable env : Env.
Variable c0 : battery_class.
Variable p0 : string * string.
Hypothesis Hfails : fails_exactly_at env c0 p0.

Lemma fails_exactly_at_runs : tool_runs_on_tables env.
Proof.
  intros f h d p. split; intros Hp.
  - destruct (Hfails ButtonCell p f h d Hp) as (code & err & out & Heq & _).
    simpl in Heq. by rewrite Heq.
  - destruct (Hfails Cylinder p f h d Hp) as (code & err & out & Heq & _).
    simpl in Heq. by rewrite Heq.
Qed.

(** The failures of a class's loop are the occurrences of [p0] among
    the pairs it goes through, when [p0] is of that class. *)
Lemma count_failed_class c scad_file build_params output_dir ps w :
  (∀ p, attempt_cmd scad_file build_params output_dir p
        = class_cmd c output_dir p) →
  ps ⊆ table_pairs (class_table c) →
  count_failed (attempts_trace env scad_file build_params output_dir ps w)
  = length (filter (λ p, c = c0 ∧ p = p0) ps).
Proof.
  intros Hcmd. revert w. induction ps as [|p ps IH]; intros w Hsub; [done|].
  cbn [attempts_trace]. rewrite count_failed_cons, filter_cons. cbn [snd].
  rewrite IH by set_solver. rewrite Hcmd.
  destruct (Hfails c p (fs w) (calls w) output_dir)
    as (code & err & out & -> & Hcode); [set_solver|].
  cbn [exit_ok]. destruct (Z.eqb_spec code 0) as [->|Hne].
  - rewrite decide_False; [done|]. intros H. by apply Hcode in H.
  - rewrite decide_True; [done|]. by apply Hcode.
Qed.

Lemma count_failed_table c scad_file build_params output_dir w :
  (∀ p, attempt_cmd scad_file build_params output_dir p
        = class_cmd c output_dir p) →
  p0 ∈ table_pairs (class_table c0) →
  count_failed (attempts_trace env scad_file build_params output_dir
                  (table_pairs (class_table c)) w)
  = if decide (c = c0) then 1 else 0.
Proof.
  intros Hcmd Hp0. rewrite (count_failed_class c) by done.
  case_decide as Hc.
  - subst c. rewrite <- (filter_eq_NoDup p0 (table_pairs (class_table c0)))
      by auto using table_pairs_NoDup.
    f_equal. apply list_filter_iff. intros p. tauto.
  - rewrite filter_none; [done|]. intros p _ [? _]. done.
Qed.

End SingleFailure.

(** C5: when the tool fails for exactly one pair and succeeds for every
    other pair of the two tables, [main] returns exit status 1, the loop
    of that pair's class returns failure count 1, and the loop of the
    other class returns failure count 0. *)
Theorem single_failure_counted_once (env : Env) (c0 : battery_class)
    (p0 : string * string) (w : World) :
  p0 ∈ table_pairs (class_table c0) →
  fails_exactly_at env c0 p0 →
  run_ready env w = true →
  (∃ w', main env w = (Returned 1%Z, w')) ∧
  (∀ output_dir w1, ∃ success_count w',
     generate_button_cell_stls env output_dir w1
     = (Returned (success_count,
                  if decide (ButtonCell = c0) then 1 else 0), w')) ∧
  (∀ output_dir w1, ∃ success_count w',
     generate_cylinder_stls env output_dir w1
     = (Returned (success_count,
                  if decide (Cylinder = c0) then 1 else 0), w')).
Proof.
  intros Hp0 Hfails Hready.
  pose proof (fails_exactly_at_runs env c0 p0 Hfails) as Hrun.
  split_and!.
  - destruct (main_returns env w Hrun Hready)
      as (w' & wb & wc & f3 & Hmain & _).
    cbv zeta in Hmain. exists w'. rewrite Hmain, count_failed_app.
    rewrite (count_failed_table env c0 p0 Hfails ButtonCell) by done.
    rewrite (count_failed_table env c0 p0 Hfails Cylinder) by done.
    by destruct c0.
  - intros output_dir w1. rewrite generate_button_cell_stls_eq.
    rewrite for_attempts_runs by (intros p f h Hp; by apply Hrun).
    rewrite (count_failed_table env c0 p0 Hfails ButtonCell) by done.
    eauto.
  - intros output_dir w1. rewrite generate_cylinder_stls_eq.
    rewrite for_attempts_runs by (intros p f h Hp; by apply Hrun).
    rewrite (count_failed_table env c0 p0 Hfails Cylinder) by done.
    eauto.
Qed.

(** ** A missing executable *)

Lemma mkdir_exist_ok_outcome p w :
  ∃ w', (mkdir_exist_ok p w = (Returned tt, w')
         ∨ mkdir_exist_ok p w = (Raised OSError, w')) ∧
        calls w' = calls w.
Proof.
  unfold mkdir_exist_ok, bind, get_fs, put_fs, raise, ret.
  destruct (fs w !! p) as [[c|]|]; [eauto..|].
  destruct (is_dir (fs w) (removelast p)); eauto.
Qed.

Lemma for_each_mkdir_outcome ps w :
  ∃ w', (for_each ps mkdir_exist_ok w = (Returned tt, w')
         ∨ for_each ps mkdir_exist_ok w = (Raised OSError, w')) ∧
        calls w' = calls w.
Proof.
  revert w. induction ps as [|p ps IH]; intros w; [by exists w; auto|].
  unfold for_each in *. cbn [for_]. unfold bind.
  destruct (mkdir_exist_ok_outcome p w) as (w1 & [Hok|Herr] & Hcalls).
  - rewrite Hok. destruct (IH w1) as (w2 & Hcase & Hcalls2).
    exists w2. split; [done | congruence].
  - rewrite Herr. eauto.
Qed.

(** C4 (amended): with the executable missing, [run_openscad] raises the
    start-up error instead of returning a failure; nothing catches it, so
    each generation loop stops at its first pair without returning its
    counters, and [main] terminates abnormally after at most one
    attempted invocation. *)
Theorem missing_tool_aborts_run (env : Env) :
  tool_missing env →
  (∀ scad_file output_file params w,
     (run_openscad env scad_file output_file params w).1 = Raised OSError) ∧
  (∀ output_dir w, ∃ w',
     generate_button_cell_stls env output_dir w = (Raised OSError, w') ∧
     calls w' = calls w ++ [(button_cmd output_dir ("CR2450", "D"),
                             NotStarted)]) ∧
  (∀ output_dir w, ∃ w',
     generate_cylinder_stls env output_dir w = (Raised OSError, w') ∧
     calls w' = calls w ++ [(cylinder_cmd output_dir ("A27", "D"),
                             NotStarted)]) ∧
  (∀ w, ∃ w',
     main env w = (Raised OSError, w') ∧
     length (calls w') ≤ length (calls w) + 1).
Proof.
  intros Hmiss.
  assert (Hbutton : ∀ output_dir w, ∃ w',
    generate_button_cell_stls env output_dir w = (Raised OSError, w') ∧
    calls w' = calls w ++ [(button_cmd output_dir ("CR2450", "D"),
                            NotStarted)]).
  { intros output_dir w. rewrite generate_button_cell_stls_eq.
    change (table_pairs BUTTON_CELL_COMPAT)
      with (("CR2450", "D") :: tl (table_pairs BUTTON_CELL_COMPAT)).
    rewrite for_attempts_missing by done. eexists. split; [reflexivity|].
    unfold attempt_world. cbn [calls print_world]. by rewrite Hmiss. }
  split_and!.
  - intros scad_file output_file params w.
    unfold run_openscad, try_except, subprocess_run_check, print, print_end,
      bind. cbn [fs calls]. by rewrite Hmiss.
  - exact Hbutton.
  - intros output_dir w. rewrite generate_cylinder_stls_eq.
    change (table_pairs CYLINDER_COMPAT)
      with (("A27", "D") :: tl (table_pairs CYLINDER_COMPAT)).
    rewrite for_attempts_missing by done. eexists. split; [reflexivity|].
    unfold attempt_world. cbn [calls print_world]. by rewrite Hmiss.
  - intros w. rewrite main_eq.
    erewrite bind_returned; [|reflexivity].
    erewrite bind_returned; [|apply print_eq].
    match goal with
    | |- context [bind (mkdir_parents ?p) ?k ?w0] =>
        destruct (for_each_mkdir_outcome (map (λ n, take n p) (seq 1 (length p))) w0)
          as (w1 & [Hok|Herr] & Hcalls1)
    end.
    + erewrite bind_returned; [|exact Hok].
      match goal with
      | |- context [generate_button_cell_stls env ?d] =>
          destruct (Hbutton d w1) as (w2 & Hgen & Hcalls2)
      end.
      unfold bind at 1. rewrite Hgen. exists w2. split; [done|].
      rewrite Hcalls2, Hcalls1, length_app. simpl. lia.
    + unfold bind at 1. unfold mkdir_parents. rewrite Herr.
      exists w1. split; [done|]. rewrite Hcalls1. simpl. lia.
Qed.

(** ** The manifest *)

Lemma string_app_assoc (s1 s2 s3 : string) :
  (s1 +:+ s2) +:+ s3 = s1 +:+ (s2 +:+ s3).
Proof.
  induction s1 as [|c s1 IH]; [reflexivity|].
  change (String c ((s1 +:+ s2) +:+ s3) = String c (s1 +:+ (s2 +:+ s3))).
  by rewrite IH.
Qed.

(** C6: whatever the generation outcomes of the run, the manifest
    [main] writes ends with the two total lines, whose figures are the
    number of keys of the button-cell table plus that of the cylinder
    table, and the sum of the host-list lengths over both tables. *)
Theorem manifest_totals_from_tables (env : Env) (w : World) :
  tool_runs env → run_ready env w = true →
  let release_dir := release_dir_of (clock env (ticks w)) in
  ∃ code w' head,
    main env w = (Returned code, w') ∧
    fs w' !! (release_dir // "MANIFEST.txt")
    = Some (File (
        head
        +:+ "Total combinations: "
        +:+ pretty (length BUTTON_CELL_COMPAT + length CYLINDER_COMPAT)
        +:+ " battery types" +:+ Str.nl
        +:+ "Total files: "
        +:+ pretty (sum_list (map (λ kv, length kv.2) BUTTON_CELL_COMPAT)
                    + sum_list (map (λ kv, length kv.2) CYLINDER_COMPAT))
        +:+ " STLs" +:+ Str.nl)).
Proof.
  intros Hrun Hready release_dir.
  destruct (main_returns env w (tool_runs_on_tables_of_runs env Hrun) Hready)
    as (w' & wb & wc & f3 & Hmain & _ & _ & Hfs).
  cbv zeta in Hmain. fold release_dir in Hfs.
  eexists _, w',
    ("# BatteryDaddy Release Manifest" +:+ Str.nl +:+ "Generated: "
     +:+ strftime_manifest (clock env (S (ticks w))) +:+ Str.nl
     +:+ manifest_listing).
  split; [exact Hmain|].
  rewrite Hfs, assemble_fs_manifest by done. do 2 f_equal.
  unfold manifest_text. rewrite !string_app_assoc. reflexivity.
Qed.

(** C7 (the code departs from it): every file the loops generate is in
    the manifest's listing, but the listing also names [CR1632-AA.stl]
    and [CR1616-AA.stl], for which neither table has a pair and which
    are never generated. *)
Theorem manifest_lists_files_never_generated :
  (∀ name, name ∈ generated_stl_files →
           name ∈ listed_stl_files manifest_listing) ∧
  ("CR1632-AA.stl" ∈ listed_stl_files manifest_listing) ∧
  ("CR1632-AA.stl" ∉ generated_stl_files) ∧
  ("CR1616-AA.stl" ∈ listed_stl_files manifest_listing) ∧
  ("CR1616-AA.stl" ∉ generated_stl_files) ∧
  (("CR1632", "AA") ∉ (table_pairs BUTTON_CELL_COMPAT
                       ++ table_pairs CYLINDER_COMPAT)) ∧
  (("CR1616", "AA") ∉ (table_pairs BUTTON_CELL_COMPAT
                       ++ table_pairs CYLINDER_COMPAT)).
Proof.
  split_and!.
  - apply Forall_forall.
    apply (bool_decide_unpack
             (Forall (λ name, name ∈ listed_stl_files manifest_listing)
                     generated_stl_files)).
    by vm_compute.
  - apply (bool_decide_unpack (_ ∈ _)). by vm_compute.
  - apply (bool_decide_unpack (_ ∉ _)). by vm_compute.
  - apply (bool_decide_unpack (_ ∈ _)). by vm_compute.
  - apply (bool_decide_unpack (_ ∉ _)). by vm_compute.
  - apply (bool_decide_unpack (_ ∉ _)). by vm_compute.
  - apply (bool_decide_unpack (_ ∉ _)). by vm_compute.
Qed.

(** ** Concrete runs *)

(** C4, as stated, fails: with no [openscad] to start, the first
    invocation does not come back as a counted failure; the loop raises
    after one call and returns no counters, and so does [main]. *)
Lemma missing_tool_is_not_a_counted_failure :
  (run_openscad Example.env_absent button_scad (["out"] // "CR2450-D.stl")
     (button_cell_params "CR2450" "D") Example.w0).1
  = Raised OSError ∧
  (generate_button_cell_stls Example.env_absent ["out"] Example.w0).1
  = Raised OSError ∧
  length (calls
    (generate_button_cell_stls Example.env_absent ["out"] Example.w0).2) = 1 ∧
  (main Example.env_absent Example.w0).1 = Raised OSError ∧
  ¬ (∃ w', generate_button_cell_stls Example.env_absent ["out"] Example.w0
           = (Returned (0, table_files BUTTON_CELL_COMPAT), w')).
Proof.
  split_and!; [by vm_compute..|].
  intros [w' Heq]. apply (f_equal fst) in Heq. by vm_compute in Heq.
Qed.

(** C8, as stated, fails: two runs started within the same second, the
    template edited in between, both exit with status 0 and use the same
    release directory; the second run overwrites the first run's copy of
    the template. *)
Lemma runs_within_a_second_share_release_dir :
  let run1 := main Example.env_twice Example.w0 in
  let run2 := main Example.env_twice (Example.edit_template run1.2) in
  let copy := release_dir_of Example.t0 // "button_cell_adapter.scad" in
  Example.t0 ≠ Example.t1 ∧
  release_dir_of Example.t0 = release_dir_of Example.t1 ∧
  run1.1 = Returned 0%Z ∧ run2.1 = Returned 0%Z ∧
  fs run1.2 !! copy = Some (File "module button() {}") ∧
  fs run2.2 !! copy
  = Some (File "module button() { cylinder(d=20, h=3); }").
Proof. cbv zeta. split_and!; [discriminate | by vm_compute..]. Qed.

Lemma generation_loops_attempt_every_pair_witness :
  tool_runs Example.env_one_failure ∧
  one_attempt_per_pair button_scad button_cell_params BUTTON_CELL_COMPAT
    ["out"] Example.w0
    (generate_button_cell_stls Example.env_one_failure ["out"] Example.w0) ∧
  one_attempt_per_pair cylinder_scad cylinder_params CYLINDER_COMPAT
    ["out"] Example.w0
    (generate_cylinder_stls Example.env_one_failure ["out"] Example.w0).
Proof.
  assert (Hrun : tool_runs Example.env_one_failure).
  { intros f h cmd. simpl. unfold Example.tool_one_failure.
    repeat case_match; reflexivity. }
  split; [exact Hrun|].
  exact (generation_loops_attempt_every_pair Example.env_one_failure ["out"]
           Example.w0 Hrun).
Defined.

Lemma run_openscad_reports_exit_status_witness :
  let cmd := openscad_cmd button_scad (["out"] // "CR2032-C.stl")
               (button_cell_params "CR2032" "C") in
  let run := run_openscad Example.env_one_failure button_scad
               (["out"] // "CR2032-C.stl") (button_cell_params "CR2032" "C")
               Example.w0 in
  tool Example.env_one_failure (fs Example.w0) (calls Example.w0) cmd
  = Exited 1 "ERROR: render failed" None ∧
  (run.1 = Returned (true, None) ↔ 1%Z = 0%Z) ∧
  (1%Z ≠ 0%Z → run.1 = Returned (false, Some "ERROR: render failed")).
Proof.
  cbv zeta. split; [reflexivity|].
  apply (run_openscad_reports_exit_status Example.env_one_failure button_scad
           (["out"] // "CR2032-C.stl") (button_cell_params "CR2032" "C")
           Example.w0 (Exited 1 "ERROR: render failed" None)).
  reflexivity.
Defined.

(** C3, as stated, fails: the tool exits with status zero but what it
    printed does not decode as text; [run_openscad] does not return
    [(True, None)], it raises [UnicodeDecodeError]. *)
Lemma undecodable_output_is_not_reported :
  let cmd := openscad_cmd button_scad (["out"] // "CR2450-D.stl")
               (button_cell_params "CR2450" "D") in
  let run := run_openscad Example.env_garbled button_scad
               (["out"] // "CR2450-D.stl") (button_cell_params "CR2450" "D")
               Example.w0 in
  tool Example.env_garbled (fs Example.w0) (calls Example.w0) cmd
  = Undecodable 0 (Some "solid adapter") ∧
  run.1 = Raised UnicodeDecodeError ∧
  run.1 ≠ Returned (true, None).
Proof. cbv zeta. split_and!; [reflexivity | by vm_compute | by vm_compute]. Qed.

(** C2, as stated, fails: with no [openscad] to start, the button-cell
    loop does not make one invocation per pair and does not return its
    counters; it raises after a single call. *)
Lemma loop_without_tool_does_not_attempt_every_pair :
  let run := generate_button_cell_stls Example.env_absent ["out"]
               Example.w0 in
  run.1 = Raised OSError ∧
  length (calls run.2) = 1 ∧
  ¬ one_attempt_per_pair button_scad button_cell_params BUTTON_CELL_COMPAT
      ["out"] Example.w0 run.
Proof.
  cbv zeta. split_and!; [by vm_compute..|].
  intros (s & f & w' & new & Heq & _).
  apply (f_equal fst) in Heq. by vm_compute in Heq.
Qed.

Lemma release_dir_distinct_iff_seconds_differ_witness :
  valid_datetime Example.t0 ∧ valid_datetime Example.t1 ∧
  (release_dir_of Example.t0 = release_dir_of Example.t1
   ↔ to_seconds Example.t0 = to_seconds Example.t1).
Proof.
  assert (H0 : valid_datetime Example.t0).
  { unfold valid_datetime, Example.t0.
    cbn [year month day hour minute second microsecond]. lia. }
  assert (H1 : valid_datetime Example.t1).
  { unfold valid_datetime, Example.t1.
    cbn [year month day hour minute second microsecond]. lia. }
  split; [exact H0|]. split; [exact H1|].
  exact (release_dir_distinct_iff_seconds_differ Example.t0 Example.t1 H0 H1).
Defined.

Lemma main_exit_status_witness :
  tool_runs Example.env_one_failure ∧
  run_ready Example.env_one_failure Example.w0 = true ∧
  ∃ code w' new,
    main Example.env_one_failure Example.w0 = (Returned code, w') ∧
    calls w' = calls Example.w0 ++ new ∧
    map fst new
    = map (button_cmd (stl_dir_of Example.t0))
          (table_pairs BUTTON_CELL_COMPAT)
      ++ map (cylinder_cmd (stl_dir_of Example.t0))
             (table_pairs CYLINDER_COMPAT) ∧
    (code = 0%Z ↔ Forall (λ c, exit_ok c.2 = true) new) ∧
    (code = 1%Z ↔ Exists (λ c, exit_ok c.2 = false) new).
Proof.
  assert (Hrun : tool_runs Example.env_one_failure).
  { intros f h cmd. simpl. unfold Example.tool_one_failure.
    repeat case_match; reflexivity. }
  assert (Hready : run_ready Example.env_one_failure Example.w0 = true)
    by (vm_compute; reflexivity).
  split; [exact Hrun|]. split; [exact Hready|].
  exact (main_exit_status Example.env_one_failure Example.w0 Hrun Hready).
Defined.

Lemma missing_tool_aborts_run_witness :
  tool_missing Example.env_absent ∧
  (∀ w, ∃ w',
     main Example.env_absent w = (Raised OSError, w') ∧
     length (calls w') ≤ length (calls w) + 1).
Proof.
  assert (Hmiss : tool_missing Example.env_absent)
    by (intros f h cmd; reflexivity).
  split; [exact Hmiss|].
  exact (proj2 (proj2 (proj2 (missing_tool_aborts_run Example.env_absent
                                Hmiss)))).
Defined.

Lemma single_failure_counted_once_witness :
  ("CR2032", "C") ∈ table_pairs (class_table ButtonCell) ∧
  fails_exactly_at Example.env_one_failure ButtonCell ("CR2032", "C") ∧
  run_ready Example.env_one_failure Example.w0 = true ∧
  ∃ w', main Example.env_one_failure Example.w0 = (Returned 1%Z, w').
Proof.
  assert (Hin : ("CR2032", "C") ∈ table_pairs (class_table ButtonCell)).
  { apply (bool_decide_unpack (_ ∈ _)). by vm_compute. }
  assert (Hfails : fails_exactly_at Example.env_one_failure ButtonCell
                     ("CR2032", "C")).
  { intros c p f h d Hp. destruct c; vm_compute in Hp;
      repeat (apply elem_of_cons in Hp as [->|Hp]);
      try (by apply elem_of_nil in Hp);
      (eexists _, _, _; split; [reflexivity|]);
      (split; [intros Hne; try done; by destruct Hne
              | intros [Hc Hp0]; congruence]). }
  assert (Hready : run_ready Example.env_one_failure Example.w0 = true)
    by (vm_compute; reflexivity).
  split; [exact Hin|]. split; [exact Hfails|]. split; [exact Hready|].
  exact (proj1 (single_failure_counted_once Example.env_one_failure
                  ButtonCell ("CR2032", "C") Example.w0 Hin Hfails Hready)).
Defined.

Lemma manifest_totals_from_tables_witness :
  tool_runs Example.env_one_failure ∧
  run_ready Example.env_one_failure Example.w0 = true ∧
  ∃ code w' head,
    main Example.env_one_failure Example.w0 = (Returned code, w') ∧
    fs w' !! (release_dir_of Example.t0 // "MANIFEST.txt")
    = Some (File (
        head
        +:+ "Total combinations: "
        +:+ pretty (length BUTTON_CELL_COMPAT + length CYLINDER_COMPAT)
        +:+ " battery types" +:+ Str.nl
        +:+ "Total files: "
        +:+ pretty (sum_list (map (λ kv, length kv.2) BUTTON_CELL_COMPAT)
                    + sum_list (map (λ kv, length kv.2) CYLINDER_COMPAT))
        +:+ " STLs" +:+ Str.nl)).
Proof.
  assert (Hrun : tool_runs Example.env_one_failure).
  { intros f h cmd. simpl. unfold Example.tool_one_failure.
    repeat case_match; reflexivity. }
  assert (Hready : run_ready Example.env_one_failure Example.w0 = true)
    by (vm_compute; reflexivity).
  split; [exact Hrun|]. split; [exact Hready|].
  exact (manifest_totals_from_tables Example.env_one_failure Example.w0
           Hrun Hready).
Defined.

Lemma release_independent_of_outcomes_witness :
  tool_runs Example.env_one_failure ∧
  (∀ f h cmd, exit_ok (tool Example.env_ok f h cmd) = true) ∧
  (∀ n, clock Example.env_ok n = clock Example.env_one_failure n) ∧
  run_ready Example.env_one_failure Example.w0 = true ∧
  ∃ code w1 w2,
    main Example.env_one_failure Example.w0 = (Returned code, w1) ∧
    main Example.env_ok Example.w0 = (Returned 0%Z, w2) ∧
    agree_outside (stl_dir_of Example.t0) (fs w1) (fs w2) ∧
    fs w1 !! (release_dir_of Example.t0 // "MANIFEST.txt")
    = Some (File (manifest_text Example.t0)) ∧
    (∀ q c, is_source q = true → fs Example.w0 !! q = Some (File c) →
            fs w1 !! (release_dir_of Example.t0 // List.last q EmptyString)
            = Some (File c)).
Proof.
  assert (Hrun : tool_runs Example.env_one_failure).
  { intros f h cmd. simpl. unfold Example.tool_one_failure.
    repeat case_match; reflexivity. }
  assert (Hok : ∀ f h cmd, exit_ok (tool Example.env_ok f h cmd) = true)
    by (intros f h cmd; reflexivity).
  assert (Hclock : ∀ n, clock Example.env_ok n
                        = clock Example.env_one_failure n)
    by (intros n; reflexivity).
  assert (Hready : run_ready Example.env_one_failure Example.w0 = true)
    by (vm_compute; reflexivity).
  split; [exact Hrun|]. split; [exact Hok|]. split; [exact Hclock|].
  split; [exact Hready|].
  exact (release_independent_of_outcomes Example.env_one_failure
           Example.env_ok Example.w0 Hrun Hok Hclock Hready).
Defined.

(** * Further properties of the script *)

(** ** What a generation loop does for any tool *)

Lemma class_loop_eq c env output_dir w :
  class_loop c env output_dir w
  = for_ (table_pairs (class_table c))
         (attempt env (class_scad c) (class_params c) output_dir) (0, 0)
         (print_world (match c with
                       | ButtonCell => button_banner
                       | Cylinder => cylinder_banner
                       end) w).
Proof.
  destruct c; [apply generate_button_cell_stls_eq
              | apply generate_cylinder_stls_eq].
Qed.

Lemma class_cmd_eq c output_dir p :
  attempt_cmd (class_scad c) (class_params c) output_dir p
  = class_cmd c output_dir p.
Proof. by destruct c. Qed.

Section AnyTool.
Variable env : Env.
Variable scad_file : path.
Variable build_params : string → string → list (string * string).
Variable output_dir : path.
Hypothesis output_dir_nonempty : output_dir ≠ [].
Hypothesis output_dir_no_slash :
  Forall (λ c, Str.no_slash c = true) output_dir.

(** Whatever the tool answers, a loop over [ps] changes no file outside
    the output directory, takes no clock reading, and lets no
    [CalledProcessError] escape. *)
Lemma for_attempts_confined ps counts w :
  let r := for_ ps (attempt env scad_file build_params output_dir) counts w in
  agree_outside output_dir (fs r.2) (fs w) ∧
  ticks r.2 = ticks w ∧
  no_called_process_error r.1.
Proof.
  revert counts w. induction ps as [|p ps IH]; intros counts w; [done|].
  cbn [for_]. unfold bind. rewrite attempt_eq.
  assert (Hstep : agree_outside output_dir
            (fs (attempt_world env scad_file build_params output_dir p w))
            (fs w)).
  { intros q Hq. by apply attempt_world_fs_frame. }
  destruct (tool env (fs w) (calls w) _) as [code err out|code out|].
  - match goal with
    | |- context [for_ ps _ ?c ?w1] => destruct (IH c w1) as (Hfs & Ht & Hr)
    end.
    cbv zeta in *. split_and!; [|by rewrite Ht|done].
    by eapply agree_outside_trans.
  - done.
  - done.
Qed.

End AnyTool.

(** X4: with a tool that starts, the two counters a loop returns are the
    number of its invocations that exited with status 0 and the number
    that exited with another status. *)
Theorem loop_counters_count_exit_statuses (c : battery_class) (env : Env)
    (output_dir : path) (w : World) :
  tool_runs env →
  ∃ w' new,
    class_loop c env output_dir w
    = (Returned (count_ok new, count_failed new), w') ∧
    calls w' = calls w ++ new.
Proof.
  intros Hrun. rewrite class_loop_eq.
  rewrite for_attempts_runs by (intros p f h _; apply Hrun).
  eexists _, _. split; [reflexivity|].
  by rewrite attempts_world_calls.
Qed.

Lemma loop_counters_count_exit_statuses_witness :
  tool_runs Example.env_ok ∧
  ∃ w' new,
    class_loop ButtonCell Example.env_ok ["out"] Example.w0
    = (Returned (count_ok new, count_failed new), w') ∧
    calls w' = calls Example.w0 ++ new.
Proof.
  assert (Hrun : tool_runs Example.env_ok)
    by (intros f h cmd; reflexivity).
  split; [exact Hrun|].
  exact (loop_counters_count_exit_statuses ButtonCell Example.env_ok ["out"]
           Example.w0 Hrun).
Defined.

(** ** A tool that stops starting midway *)

Lemma for_attempts_stop env scad_file build_params output_dir ps1 p ps2
    counts w :
  (∀ p' f h, p' ∈ ps1 →
     exited (tool env f h (attempt_cmd scad_file build_params output_dir p'))
     = true) →
  (∀ f h, tool env f h (attempt_cmd scad_file build_params output_dir p)
          = NotStarted) →
  for_ (ps1 ++ p :: ps2) (attempt env scad_file build_params output_dir)
       counts w
  = (Raised OSError,
     attempts_world env scad_file build_params output_dir (ps1 ++ [p]) w).
Proof.
  intros Hstart Hstop. rewrite for_app. unfold bind.
  rewrite for_attempts_runs by done.
  cbn [for_]. unfold bind. rewrite attempt_eq, Hstop.
  unfold attempts_world. by rewrite foldl_app.
Qed.

(** X5: a start-up failure is not tolerated like a nonzero exit.  If the
    tool starts and reports back for the pairs before [p] in table order
    and cannot be started for [p], the loop raises at [p]: it has invoked
    the tool for the pairs up to [p] and for no later pair, and the
    counts of the earlier pairs are not returned. *)
Theorem loop_stops_at_first_start_failure (c : battery_class) (env : Env)
    (output_dir : path) (w : World)
    (before : list (string * string)) (p : string * string)
    (after : list (string * string)) :
  table_pairs (class_table c) = before ++ p :: after →
  (∀ p' f h, p' ∈ before →
     exited (tool env f h (class_cmd c output_dir p')) = true) →
  (∀ f h, tool env f h (class_cmd c output_dir p) = NotStarted) →
  ∃ w' new,
    class_loop c env output_dir w = (Raised OSError, w') ∧
    calls w' = calls w ++ new ∧
    map fst new = map (class_cmd c output_dir) (before ++ [p]).
Proof.
  intros Htable Hstart Hstop. rewrite class_loop_eq, Htable.
  rewrite for_attempts_stop.
  - eexists _, _. split; [reflexivity|].
    rewrite attempts_world_calls. split; [reflexivity|].
    rewrite attempts_trace_cmds. apply map_ext. intros q.
    apply class_cmd_eq.
  - intros p' f h Hp'. rewrite class_cmd_eq. by apply Hstart.
  - intros f h. rewrite class_cmd_eq. apply Hstop.
Qed.

(** ** [releases] in the way *)

(** X6: when [releases] exists as a regular file, [main] raises an
    [OSError] before generating anything: the tool is never invoked and
    the file system is left as it was. *)
Theorem main_blocked_by_regular_file (env : Env) (w : World) (c : string) :
  fs w !! ["releases"] = Some (File c) →
  ∃ w', main env w = (Raised OSError, w') ∧
        fs w' = fs w ∧ calls w' = calls w.
Proof.
  intros Hfile. rewrite main_eq.
  erewrite bind_returned; [|reflexivity].
  erewrite bind_returned; [|apply print_eq].
  unfold bind at 1. unfold mkdir_parents, for_each, stl_dir_of,
    release_dir_of, path_div.
  cbn [app length seq map take for_].
  unfold bind at 1. unfold mkdir_exist_ok at 1. unfold bind at 1.
  unfold get_fs at 1. cbn [fs print_world]. rewrite Hfile.
  eexists. split; [reflexivity|]. done.
Qed.

(** ** File names *)

Lemma string_length_app (s t : string) :
  String.length (s +:+ t) = String.length s + String.length t.
Proof.
  induction s as [|c s IH]; [done|].
  change (S (String.length (s +:+ t)) = S (String.length s + String.length t)).
  by rewrite IH.
Qed.

Lemma string_app_inj_r (s1 s2 t : string) : s1 +:+ t = s2 +:+ t → s1 = s2.
Proof.
  intros Heq.
  assert (Hlen : String.length s1 = String.length s2).
  { apply (f_equal String.length) in Heq.
    rewrite !string_length_app in Heq. lia. }
  by destruct (string_app_inj_length s1 s2 t t Hlen Heq).
Qed.

Lemma dash_split (b1 b2 r1 r2 : string) :
  no_dash b1 = true → no_dash b2 = true →
  b1 +:+ String dash r1 = b2 +:+ String dash r2 → b1 = b2 ∧ r1 = r2.
Proof.
  revert b2. induction b1 as [|c b1 IH]; intros [|c' b2] H1 H2 Heq.
  - by injection Heq as ->.
  - injection Heq as <- _. by vm_compute in H2.
  - injection Heq as -> _. by vm_compute in H1.
  - injection Heq as -> Heq. simpl in H1, H2.
    apply andb_true_iff in H1 as [_ H1]. apply andb_true_iff in H2 as [_ H2].
    destruct (IH b2 H1 H2 Heq) as [-> ->]. done.
Qed.

(** X8: two (battery, host) pairs whose battery identifiers contain no
    dash never share an output file name: [f"{battery}-{host}.stl"]
    determines the pair. *)
Theorem stl_name_determines_pair (b1 h1 b2 h2 : string) :
  no_dash b1 = true → no_dash b2 = true →
  stl_name b1 h1 = stl_name b2 h2 → b1 = b2 ∧ h1 = h2.
Proof.
  intros H1 H2 Heq. unfold stl_name in Heq.
  apply (dash_split b1 b2 (h1 +:+ ".stl") (h2 +:+ ".stl") H1 H2) in Heq
    as [-> Heq].
  split; [done|]. by apply string_app_inj_r in Heq.
Qed.

(** With a dash in the battery identifier the name is ambiguous. *)
Lemma stl_name_collision : stl_name "LR-44" "D" = stl_name "LR" "44-D".
Proof. reflexivity. Qed.

Lemma stl_name_determines_pair_witness :
  no_dash "CR2032" = true ∧ no_dash "CR2032" = true ∧
  (stl_name "CR2032" "D" = stl_name "CR2032" "D" →
   "CR2032" = "CR2032" ∧ "D" = "D").
Proof.
  split; [reflexivity|]. split; [reflexivity|].
  exact (stl_name_determines_pair "CR2032" "D" "CR2032" "D" eq_refl eq_refl).
Defined.

Lemma loop_stops_at_first_start_failure_witness :
  table_pairs (class_table Cylinder)
  = [("A27", "D")] ++ ("A27", "C") :: [("AAAA", "D"); ("AAAA", "C")] ∧
  ∃ w' new,
    class_loop Cylinder Midway.env ["out"] Example.w0
    = (Raised OSError, w') ∧
    calls w' = calls Example.w0 ++ new ∧
    map fst new
    = map (class_cmd Cylinder ["out"]) ([("A27", "D")] ++ [("A27", "C")]).
Proof.
  split; [reflexivity|].
  apply (loop_stops_at_first_start_failure Cylinder Midway.env
           ["out"] Example.w0 [("A27", "D")] ("A27", "C")
           [("AAAA", "D"); ("AAAA", "C")]).
  - reflexivity.
  - intros p' f h Hp'. apply list_elem_of_singleton in Hp' as ->.
    reflexivity.
  - intros f h. reflexivity.
Defined.

Lemma main_blocked_by_regular_file_witness :
  let w := set_fs (<[ ["releases"] := File "notes" ]> Example.cwd)
                  Example.w0 in
  fs w !! ["releases"] = Some (File "notes") ∧
  ∃ w', main Example.env_ok w = (Raised OSError, w') ∧
        fs w' = fs w ∧ calls w' = calls w.
Proof.
  cbv zeta.
  assert (Hfile : fs (set_fs (<[ ["releases"] := File "notes" ]> Example.cwd)
                             Example.w0) !! ["releases"]
                  = Some (File "notes")) by (vm_compute; reflexivity).
  split; [exact Hfile|].
  exact (main_blocked_by_regular_file Example.env_ok _ "notes" Hfile).
Defined.

(** ** What [main] never does *)

Lemma outside_releases_refl w : outside_releases w w.
Proof. by intros q Hq. Qed.

Lemma outside_releases_trans w1 w2 w3 :
  outside_releases w1 w2 → outside_releases w2 w3 → outside_releases w1 w3.
Proof. intros H12 H23 q Hq. by rewrite H23, H12. Qed.

Lemma outside_releases_insert p nd w :
  ["releases"] `prefix_of` p →
  outside_releases w (mk_World (<[p := nd]> (fs w)) (stdout w) (calls w)
                               (ticks w)).
Proof.
  intros Hp q Hq. cbn [fs]. apply lookup_insert_ne. by intros ->.
Qed.

Lemma keeps_ret {A} (P : A → Prop) (a : A) : P a → keeps P (ret a).
Proof. intros Ha w. split; [apply outside_releases_refl | done]. Qed.

Lemma keeps_raise {A} (P : A → Prop) : keeps P (raise OSError).
Proof. intros w. split; [apply outside_releases_refl | done]. Qed.

Lemma keeps_bind {A B} (P : A → Prop) (Q : B → Prop) (m : M A)
    (k : A → M B) :
  keeps P m → (∀ a, P a → keeps Q (k a)) → keeps Q (bind m k).
Proof.
  intros Hm Hk w. unfold bind. destruct (Hm w) as [HR HP].
  destruct (m w) as [[a|e] w1]; cbn [fst snd] in *.
  - destruct (Hk a HP w1) as [HR2 HQ]. split; [|done].
    by eapply outside_releases_trans.
  - done.
Qed.

Lemma keeps_weaken {A} (P Q : A → Prop) (m : M A) :
  keeps P m → (∀ a, P a → Q a) → keeps Q m.
Proof.
  intros Hm HPQ w. destruct (Hm w) as [HR HP]. split; [done|].
  destruct (m w).1; auto.
Qed.

Lemma keeps_for {X S} (xs : list X) (body : X → S → M S) (s : S) :
  (∀ x s', keeps (λ _, True) (body x s')) →
  keeps (λ _, True) (for_ xs body s).
Proof.
  intros Hbody. revert s. induction xs as [|x xs IH]; intros s.
  - by apply keeps_ret.
  - cbn [for_]. eapply keeps_bind; [apply Hbody|]. intros s' _. apply IH.
Qed.

Lemma keeps_print s : keeps (λ _, True) (print s).
Proof. intros w. split; [by intros q Hq | done]. Qed.

Lemma keeps_now env : keeps (λ _, True) (now env).
Proof. intros w. split; [by intros q Hq | done]. Qed.

Lemma keeps_get_fs : keeps (λ _, True) get_fs.
Proof. intros w. split; [apply outside_releases_refl | done]. Qed.

Lemma keeps_mkdir_exist_ok p :
  ["releases"] `prefix_of` p → keeps (λ _, True) (mkdir_exist_ok p).
Proof.
  intros Hp w. unfold mkdir_exist_ok, bind, get_fs, put_fs, raise, ret.
  destruct (fs w !! p) as [[c|]|]; cbn [fst snd];
    [split; [apply outside_releases_refl | done]..|].
  destruct (is_dir (fs w) (removelast p)); cbn [fst snd].
  - split; [by apply outside_releases_insert | done].
  - split; [apply outside_releases_refl | done].
Qed.

Lemma keeps_read_text p : keeps (λ _, True) (read_text p).
Proof.
  intros w. unfold read_text, bind, get_fs, raise, ret.
  destruct (fs w !! p) as [[c|]|]; cbn [fst snd];
    (split; [apply outside_releases_refl | done]).
Qed.

Lemma keeps_write_text p c :
  ["releases"] `prefix_of` p → keeps (λ _, True) (write_text p c).
Proof.
  intros Hp w. unfold write_text, bind, get_fs, put_fs, raise.
  destruct (is_dir (fs w) p); cbn [fst snd];
    [split; [apply outside_releases_refl | done]|].
  destruct (is_dir (fs w) (removelast p)); cbn [fst snd].
  - split; [by apply outside_releases_insert | done].
  - split; [apply outside_releases_refl | done].
Qed.

Lemma keeps_shutil_copy src dst :
  ["releases"] `prefix_of` dst → keeps (λ _, True) (shutil_copy src dst).
Proof.
  intros Hdst. unfold shutil_copy.
  eapply keeps_bind; [apply keeps_get_fs|]. intros f _.
  eapply keeps_bind; [apply keeps_read_text|]. intros c _.
  apply keeps_write_text. destruct (is_dir f dst); [|done].
  by apply prefix_app_r.
Qed.

Lemma keeps_create_manifest env rd :
  ["releases"] `prefix_of` rd →
  keeps (λ _, True) (create_manifest env rd).
Proof.
  intros Hrd. unfold create_manifest.
  eapply keeps_bind; [apply keeps_now|]. intros t _.
  eapply keeps_bind; [|intros _ _; apply keeps_print].
  apply keeps_write_text. by apply prefix_app_r.
Qed.

Lemma keeps_mkdir_parents t : keeps (λ _, True) (mkdir_parents (stl_dir_of t)).
Proof.
  unfold mkdir_parents, for_each, stl_dir_of, release_dir_of, path_div.
  cbn [app length seq map take for_].
  eapply keeps_bind;
    [apply keeps_mkdir_exist_ok; by exists []|]. intros ? _.
  eapply keeps_bind;
    [apply keeps_mkdir_exist_ok; by exists [strftime_release t]|].
  intros ? _.
  eapply keeps_bind;
    [apply keeps_mkdir_exist_ok; by exists [strftime_release t; "stls"]|].
  intros ? _. by apply keeps_ret.
Qed.

Lemma keeps_class_loop c env t :
  keeps (λ _, True) (class_loop c env (stl_dir_of t)).
Proof.
  intros w. destruct (stl_dir_no_slash t) as [Hne Hslash].
  rewrite class_loop_eq.
  match goal with
  | |- context [for_ ?ps ?body ?s ?w0] =>
      destruct (for_attempts_confined env (class_scad c) (class_params c)
                  (stl_dir_of t) Hne Hslash ps s w0) as (Hfs & _ & Hr);
      cbv zeta in Hfs, Hr;
      destruct (for_ ps body s w0) as [r w1]
  end.
  cbn [fst snd] in *. split.
  - intros q Hq. apply Hfs. intros Hsd. apply Hq.
    etrans; [|exact Hsd]. by exists [strftime_release t; "stls"].
  - unfold no_called_process_error in Hr. by destruct r.
Qed.

Lemma keeps_main_assemble env t button cylinder :
  keeps (λ code, code = 0%Z ∨ code = 1%Z)
        (main_assemble env (release_dir_of t) button cylinder).
Proof.
  assert (Hrd : ["releases"] `prefix_of` release_dir_of t)
    by (by exists [strftime_release t]).
  unfold main_assemble. cbv zeta.
  eapply keeps_bind; [apply keeps_print|]. intros _ _.
  eapply keeps_bind; [apply (keeps_bind _ _ _ _ keeps_get_fs);
                      intros f _; by apply (keeps_ret (λ _, True))|].
  intros scad_files _.
  eapply keeps_bind.
  { apply keeps_for. intros x _.
    eapply keeps_bind; [|intros _ _; apply keeps_print].
    apply keeps_shutil_copy. by apply prefix_app_r. }
  intros _ _.
  eapply keeps_bind; [apply (keeps_bind _ _ _ _ keeps_get_fs);
                      intros f _; by apply (keeps_ret (λ _, True))|].
  intros readme _.
  eapply keeps_bind.
  { destruct readme; [|by apply (keeps_ret (λ _, True))].
    eapply keeps_bind; [|intros _ _; apply keeps_print].
    apply keeps_shutil_copy. by apply prefix_app_r. }
  intros _ _.
  eapply keeps_bind; [by apply keeps_create_manifest|]. intros _ _.
  eapply keeps_bind; [apply keeps_print|]. intros _ _.
  eapply keeps_bind; [apply keeps_print|]. intros _ _.
  eapply keeps_bind.
  { destruct (0 <? _); [apply keeps_print | by apply (keeps_ret (λ _, True))]. }
  intros _ _.
  eapply keeps_bind; [apply keeps_print|]. intros _ _.
  eapply keeps_bind; [apply keeps_print|]. intros _ _.
  apply keeps_ret. destruct (_ =? 0); auto.
Qed.

Lemma keeps_main env : keeps (λ code, code = 0%Z ∨ code = 1%Z) (main env).
Proof.
  intros w. rewrite main_eq. revert w.
  eapply keeps_bind; [apply keeps_now|]. intros t _.
  eapply keeps_bind; [apply keeps_print|]. intros _ _.
  eapply keeps_bind; [apply keeps_mkdir_parents|]. intros _ _.
  eapply keeps_bind; [apply (keeps_class_loop ButtonCell)|]. intros button _.
  eapply keeps_bind; [apply keeps_print|]. intros _ _.
  eapply keeps_bind; [apply (keeps_class_loop Cylinder)|]. intros cylinder _.
  apply keeps_main_assemble.
Qed.


(** X2: whatever happens during a run, also when it ends in an error,
    [main] creates, changes and removes nothing outside the [releases]
    tree: the templates and every other file of the working directory
    are as they were. *)
Theorem main_touches_only_releases (env : Env) (w : World) (q : path) :
  ¬ ["releases"] `prefix_of` q →
  fs (main env w).2 !! q = fs w !! q.
Proof.
  intros Hq. destruct (keeps_main env w) as [Hfs _]. by apply Hfs.
Qed.

Lemma main_touches_only_releases_witness :
  ¬ ["releases"] `prefix_of` ["button_cell_adapter.scad"] ∧
  fs (main Example.env_one_failure Example.w0).2
    !! ["button_cell_adapter.scad"]
  = fs Example.w0 !! ["button_cell_adapter.scad"].
Proof.
  assert (Hq : ¬ ["releases"] `prefix_of` ["button_cell_adapter.scad"])
    by (intros [k Hk]; discriminate).
  split; [exact Hq|].
  exact (main_touches_only_releases Example.env_one_failure Example.w0
           ["button_cell_adapter.scad"] Hq).
Defined.

(** ** The release root *)

Section ReleaseRoot.
Variable rd : path.
Hypothesis rd_nonempty : rd ≠ [].

Lemma copy_fs_lookup_other n f src :
  is_source src = true →
  (is_source [n] = false ∨ ∀ c, f !! [n] ≠ Some (File c)) →
  copy_fs rd f src !! (rd // n) = f !! (rd // n).
Proof.
  intros Hsrc Hn. unfold copy_fs.
  destruct (f !! src) as [[c|]|] eqn:Hlook; [|done..].
  apply lookup_insert_ne. unfold path_div. intros Heq.
  apply app_inv_head in Heq.
  apply is_source_inv in Hsrc as Hinv. destruct Hinv as (m & -> & _).
  simpl in Heq. injection Heq as ->.
  destruct Hn as [Hn|Hn]; [congruence | by destruct (Hn c)].
Qed.

Lemma copies_lookup_other n xs f :
  Forall (λ x, is_source x = true) xs →
  (is_source [n] = false ∨ ∀ c, f !! [n] ≠ Some (File c)) →
  foldl (copy_fs rd) f xs !! (rd // n) = f !! (rd // n).
Proof.
  revert f. induction xs as [|x xs IH]; intros f Hxs Hn; [done|].
  apply Forall_cons in Hxs as [Hx Hxs]. simpl.
  rewrite IH, copy_fs_lookup_other; [done..|].
  destruct (is_source [n]) eqn:Hsrc; [|by left].
  right. intros c. rewrite copy_fs_lookup_source by done.
  destruct Hn as [?|Hn]; [done | apply Hn].
Qed.

(** Apart from the manifest, the assembly adds to the release root the
    regular source files of the working directory and nothing else. *)
Lemma assemble_fs_root t f n :
  n ≠ "MANIFEST.txt" →
  (∀ q, is_source q = true → f !! q ≠ Some Dir) →
  assemble_fs rd t f !! (rd // n)
  = if is_source [n]
    then match f !! [n] with
         | Some nd => Some nd
         | None => f !! (rd // n)
         end
    else f !! (rd // n).
Proof.
  intros Hn Hreg.
  assert (Hglob : Forall (λ x, is_source x = true) (glob_list ".scad" f)).
  { apply Forall_forall. intros x Hx. by apply glob_list_sources in Hx as [? _]. }
  destruct (is_source [n]) eqn:Hsrc.
  - destruct (f !! [n]) as [[c|]|] eqn:Hlook.
    + by apply (assemble_fs_copies rd rd_nonempty t f [n] c).
    + by destruct (Hreg [n] Hsrc).
    + unfold assemble_fs. rewrite lookup_insert_ne; cycle 1.
      { unfold path_div. intros Heq. apply app_inv_head in Heq. congruence. }
      rewrite copy_fs_lookup_other; [|done|].
      * apply copies_lookup_other; [done|]. right. intros c. congruence.
      * right. intros c. rewrite copies_lookup_source by done. congruence.
  - unfold assemble_fs. rewrite lookup_insert_ne; cycle 1.
    { unfold path_div. intros Heq. apply app_inv_head in Heq. congruence. }
    rewrite copy_fs_lookup_other; [|done|by left].
    apply copies_lookup_other; [done | by left].
Qed.

End ReleaseRoot.

(** X7: after a run from a ready state, the release root holds, next to
    the [stls] directory, exactly the manifest and a copy of each
    regular file of the working directory that is named [README.md] or
    [*.scad]; no other name exists in it. *)
Theorem release_root_contents (env : Env) (w : World) :
  tool_runs env → run_ready env w = true →
  let release_dir := release_dir_of (clock env (ticks w)) in
  ∃ code w',
    main env w = (Returned code, w') ∧
    ∀ name, name ≠ "stls" →
      fs w' !! (release_dir // name)
      = if decide (name = "MANIFEST.txt")
        then Some (File (manifest_text (clock env (S (ticks w)))))
        else if is_source [name] then fs w !! [name] else None.
Proof.
  intros Hrun Hready release_dir.
  destruct (main_returns env w (tool_runs_on_tables_of_runs env Hrun) Hready)
    as (w' & wb & wc & f3 & Hmain & _ & Hagree & Hfs).
  cbv zeta in Hmain. fold release_dir in Hfs.
  unfold run_ready in Hready. apply andb_true_iff in Hready as [Hfresh Hreg].
  apply release_fresh_spec in Hfresh as [_ Hnone].
  set (t := clock env (ticks w)) in *.
  assert (Hsrc : ∀ q, is_source q = true → f3 !! q = fs w !! q).
  { intros q Hq. rewrite Hagree by (apply source_outside; [simpl; lia | done]).
    unfold mkdirs_fs. rewrite !lookup_insert_ne; [done|..];
      intros <-; discriminate. }
  assert (Hroot : ∀ name, name ≠ "stls" → f3 !! (release_dir // name) = None).
  { intros name Hname. rewrite Hagree; cycle 1.
    { intros [k Hk]. unfold stl_dir_of, path_div in Hk.
      fold release_dir in Hk. unfold path_div in Hk.
      rewrite <- app_assoc in Hk.
      apply app_inv_head in Hk. simpl in Hk. congruence. }
    unfold mkdirs_fs, stl_dir_of. fold release_dir.
    rewrite !lookup_insert_ne.
    - apply Hnone. by exists [name].
    - done.
    - unfold path_div. intros Heq. apply (f_equal length) in Heq.
      rewrite length_app in Heq. simpl in Heq. lia.
    - unfold path_div. intros Heq. apply app_inv_head in Heq. congruence. }
  eexists _, w'. split; [exact Hmain|]. intros name Hname. rewrite Hfs.
  case_decide as Hman.
  - subst name. by apply assemble_fs_manifest.
  - rewrite assemble_fs_root; [|done..|].
    + destruct (is_source [name]) eqn:Hs; [|by apply Hroot].
      rewrite Hsrc by done. destruct (fs w !! [name]); [done|].
      by apply Hroot.
    + intros q Hq. rewrite Hsrc by done. by apply sources_regular_spec.
Qed.

Lemma release_root_contents_witness :
  tool_runs Example.env_one_failure ∧
  run_ready Example.env_one_failure Example.w0 = true ∧
  ∃ code w',
    main Example.env_one_failure Example.w0 = (Returned code, w') ∧
    ∀ name, name ≠ "stls" →
      fs w' !! (release_dir_of Example.t0 // name)
      = if decide (name = "MANIFEST.txt")
        then Some (File (manifest_text Example.t0))
        else if is_source [name] then fs Example.w0 !! [name] else None.
Proof.
  assert (Hrun : tool_runs Example.env_one_failure).
  { intros f h cmd. simpl. unfold Example.tool_one_failure.
    repeat case_match; reflexivity. }
  assert (Hready : run_ready Example.env_one_failure Example.w0 = true)
    by (vm_compute; reflexivity).
  split; [exact Hrun|]. split; [exact Hready|].
  exact (release_root_contents Example.env_one_failure Example.w0
           Hrun Hready).
Defined.

(** ** An error in the copy phase *)

Lemma main_generation env w :
  tool_runs_on_tables env →
  release_fresh (clock env (ticks w)) (fs w) = true →
  let t := clock env (ticks w) in
  ∃ button cylinder w3 new,
    main env w = main_assemble env (release_dir_of t) button cylinder w3 ∧
    agree_outside (stl_dir_of t) (fs w3) (mkdirs_fs t (fs w)) ∧
    calls w3 = calls w ++ new ∧
    length new = table_files BUTTON_CELL_COMPAT + table_files CYLINDER_COMPAT.
Proof.
  intros Hrun Hfresh t. fold t in Hfresh.
  destruct (stl_dir_no_slash t) as [Hne Hslash].
  rewrite main_eq.
  erewrite bind_returned; [|reflexivity]. fold t.
  erewrite bind_returned; [|apply print_eq].
  erewrite bind_returned; [|by apply mkdir_parents_eq].
  set (w1 := set_fs _ _).
  erewrite bind_returned; cycle 1.
  { rewrite generate_button_cell_stls_eq. apply for_attempts_runs.
    intros p f h Hp. by apply Hrun. }
  erewrite bind_returned; [|apply print_eq].
  erewrite bind_returned; cycle 1.
  { rewrite generate_cylinder_stls_eq. apply for_attempts_runs.
    intros p f h Hp. by apply Hrun. }
  destruct (generation_phase env (stl_dir_of t)
              (table_pairs BUTTON_CELL_COMPAT) (table_pairs CYLINDER_COMPAT)
              w1 Hne Hslash) as (Hagree & _ & Hcalls).
  eexists _, _, _, _. split; [reflexivity|]. split; [exact Hagree|].
  split; [exact Hcalls|].
  rewrite length_app, !attempts_trace_length, !table_files_pairs.
  reflexivity.
Qed.

Lemma shutil_copy_cases src dst w :
  (∃ c dst', (dst' = dst ∨ dst' = dst // List.last src EmptyString) ∧
             fs w !! src = Some (File c) ∧
             shutil_copy src dst w
             = (Returned tt, set_fs (<[dst' := File c]> (fs w)) w)) ∨
  shutil_copy src dst w = (Raised OSError, w).
Proof.
  unfold shutil_copy, read_text, write_text.
  unfold bind, get_fs, put_fs, raise, ret. cbn [fs].
  destruct (fs w !! src) as [[c|]|] eqn:Hsrc; [|by right..].
  set (dst' := if is_dir (fs w) dst then _ else _).
  destruct (is_dir (fs w) dst'); [by right|].
  destruct (is_dir (fs w) (removelast dst')); [|by right].
  left. exists c, dst'. split; [|done].
  unfold dst'. destruct (is_dir (fs w) dst); auto.
Qed.

(** A directory among the sources stops the copy loop with an error,
    before any manifest can be written. *)
Lemma copy_loop_blocked rd xs bad w :
  rd ≠ [] →
  Forall (λ x, is_source x = true) xs →
  bad ∈ xs → fs w !! bad = Some Dir →
  ∃ w',
    for_each xs (λ scad_file,
      shutil_copy scad_file (rd // List.last scad_file EmptyString) ;;
      print ("  " +:+ List.last scad_file EmptyString)) w
    = (Raised OSError, w') ∧
    calls w' = calls w ∧
    fs w' !! (rd // "MANIFEST.txt") = fs w !! (rd // "MANIFEST.txt").
Proof.
  intros Hrd Hxs. revert w. induction xs as [|x xs IH]; intros w Hbad Hdir.
  - by apply elem_of_nil in Hbad.
  - apply Forall_cons in Hxs as [Hx Hxs].
    unfold for_each in *. cbn [for_]. unfold bind at 1. unfold bind at 1.
    destruct (shutil_copy_cases x (rd // List.last x EmptyString) w)
      as [(c & dst' & Hdst & Hfile & ->)| ->]; [|by exists w].
    rewrite print_eq.
    assert (Hne : x ≠ bad) by (intros ->; congruence).
    apply elem_of_cons in Hbad as [->|Hbad]; [done|].
    apply is_source_inv in Hx as Hinv. destruct Hinv as (n & -> & Hn).
    assert (Hbadsrc : is_source bad = true).
    { rewrite Forall_forall in Hxs. by apply Hxs. }
    assert (Hfar : dst' ≠ bad ∧ dst' ≠ rd // "MANIFEST.txt").
    { split.
      - intros ->. apply is_source_inv in Hbadsrc as (m & Hm & _).
        apply (f_equal length) in Hm. unfold path_div in *.
        destruct Hdst as [Hd|Hd]; rewrite Hd, ?length_app in Hm;
          simpl in Hm; destruct rd; simpl in Hm; try done; lia.
      - unfold path_div in *. simpl in Hdst.
        destruct Hdst as [->| ->]; intros Heq.
        + apply app_inv_head in Heq. injection Heq as ->.
          by destruct Hn as [?|Hn]; [|vm_compute in Hn].
        + apply (f_equal length) in Heq. rewrite !length_app in Heq.
          simpl in Heq. lia. }
    destruct Hfar as [Hfar1 Hfar2].
    destruct (IH Hxs (print_world ("  " +:+ List.last [n] EmptyString)
                        (set_fs (<[dst' := File c]> (fs w)) w)))
      as (w' & Hrun & Hcalls & Hman); [done| |].
    + cbn [fs print_world set_fs]. by rewrite lookup_insert_ne.
    + exists w'. split; [exact Hrun|]. split; [exact Hcalls|].
      rewrite Hman. cbn [fs print_world set_fs]. by rewrite lookup_insert_ne.
Qed.

(** X9: a directory of the working directory named [*.scad] is an error
    the run meets only in the copy phase: from an otherwise ready state
    [main] makes every one of its tool invocations and then raises an
    [OSError], without returning an exit status and without writing the
    manifest. *)
Theorem main_fails_after_generation_on_directory_source (env : Env)
    (w : World) (name : string) :
  tool_runs env →
  release_fresh (clock env (ticks w)) (fs w) = true →
  Str.ends_with ".scad" name = true →
  fs w !! [name] = Some Dir →
  ∃ w' new,
    main env w = (Raised OSError, w') ∧
    calls w' = calls w ++ new ∧
    length new = table_files BUTTON_CELL_COMPAT
                 + table_files CYLINDER_COMPAT ∧
    fs w' !! (release_dir_of (clock env (ticks w)) // "MANIFEST.txt") = None.
Proof.
  intros Hrun Hfresh Hends Hdir.
  destruct (main_generation env w (tool_runs_on_tables_of_runs env Hrun)
              Hfresh) as (button & cylinder & w3 & new & Hmain & Hagree
                          & Hcalls & Hlen).
  set (t := clock env (ticks w)) in *.
  apply release_fresh_spec in Hfresh as [_ Hnone].
  assert (Hsrc : is_source [name] = true).
  { simpl. by rewrite Hends, orb_true_r. }
  assert (Hdir3 : fs w3 !! [name] = Some Dir).
  { rewrite Hagree by (apply source_outside; [simpl; lia | done]).
    unfold mkdirs_fs. rewrite !lookup_insert_ne; [done|..];
      intros Heq; rewrite <- Heq in Hsrc; discriminate. }
  assert (Hman3 : fs w3 !! (release_dir_of t // "MANIFEST.txt") = None).
  { rewrite Hagree by (intros [k Hk]; discriminate).
    unfold mkdirs_fs. rewrite !lookup_insert_ne by done.
    apply Hnone. by exists ["MANIFEST.txt"]. }
  rewrite Hmain. unfold main_assemble. cbv zeta.
  erewrite bind_returned; [|apply print_eq].
  erewrite bind_returned; [|reflexivity].
  set (w4 := print_world _ w3).
  destruct (copy_loop_blocked (release_dir_of t)
              (glob_list ".scad" (fs w4)) [name] w4)
    as (w' & Hloop & Hcalls' & Hman'); [done| | |done|].
  - apply Forall_forall. intros x Hx. by apply glob_list_sources in Hx as [? _].
  - by eapply glob_list_elem.
  - unfold bind at 1. rewrite Hloop. exists w', new.
    split; [done|]. split; [by rewrite Hcalls'|]. split; [done|].
    by rewrite Hman'.
Qed.

Lemma main_fails_after_generation_on_directory_source_witness :
  let w := set_fs (<[ ["parts.scad"] := Dir ]> Example.cwd) Example.w0 in
  tool_runs Example.env_ok ∧
  release_fresh (clock Example.env_ok (ticks w)) (fs w) = true ∧
  Str.ends_with ".scad" "parts.scad" = true ∧
  fs w !! ["parts.scad"] = Some Dir ∧
  ∃ w' new,
    main Example.env_ok w = (Raised OSError, w') ∧
    calls w' = calls w ++ new ∧
    length new = table_files BUTTON_CELL_COMPAT
                 + table_files CYLINDER_COMPAT ∧
    fs w' !! (release_dir_of (clock Example.env_ok (ticks w))
              // "MANIFEST.txt") = None.
Proof.
  cbv zeta.
  assert (Hrun : tool_runs Example.env_ok)
    by (intros f h cmd; reflexivity).
  assert (Hfresh : release_fresh
            (clock Example.env_ok
               (ticks (set_fs (<[ ["parts.scad"] := Dir ]> Example.cwd)
                              Example.w0)))
            (fs (set_fs (<[ ["parts.scad"] := Dir ]> Example.cwd)
                        Example.w0)) = true)
    by (vm_compute; reflexivity).
  assert (Hends : Str.ends_with ".scad" "parts.scad" = true)
    by (vm_compute; reflexivity).
  assert (Hdir : fs (set_fs (<[ ["parts.scad"] := Dir ]> Example.cwd)
                            Example.w0) !! ["parts.scad"] = Some Dir)
    by (vm_compute; reflexivity).
  split; [exact Hrun|]. split; [exact Hfresh|]. split; [exact Hends|].
  split; [exact Hdir|].
  exact (main_fails_after_generation_on_directory_source Example.env_ok _
           "parts.scad" Hrun Hfresh Hends Hdir).
Defined.
